(** * Key-protection layer of python-cwt

    Shallow embedding of [cwt/recipient_algs/aes_key_wrap.py] (the AES key
    wrap recipient) and [cwt/encrypted_cose_key.py] (the encrypted COSE key
    envelope), together with the third-party primitive they rest on
    ([aes_key_wrap] / [aes_key_unwrap] of the [cryptography] package, i.e.
    RFC 3394 over the AES block cipher of FIPS 197). *)

From Stdlib Require Import ZArith NArith List String Strings.Byte Bool Lia.
From stdpp Require Import gmap strings pretty.
Import ListNotations.

#[local] Open Scope Z_scope.
#[local] Set Warnings "-register-all".

(** ** Python values *)

(** A Python [bytes] object. *)
Abbreviation bytes := (list byte).

#[export] Instance byte_eq_dec : EqDecision byte := Byte.byte_eq_dec.

(** The exceptions that can travel through the modelled code.  [ValueError]
    is what the specification calls InvalidArgument.  [EncodeError],
    [DecodeError] and [VerifyError] are the classes of [cwt.exceptions]; the
    optional argument is the [__cause__] set by [raise ... from err]. *)
Inductive exception : Type :=
| ValueError (msg : string)
| NotImplementedError (msg : string)
| OverflowError (msg : string)
| InvalidUnwrap (msg : string)
| EncodeError (msg : string) (cause : option exception)
| DecodeError (msg : string) (cause : option exception)
| VerifyError (msg : string) (cause : option exception)
| OtherException (cls msg : string).

(** Outcome of a call: a returned value or a raised exception. *)
Inductive result (A : Type) : Type :=
| Return (a : A)
| Raise (e : exception).
Arguments Return {A} a.
Arguments Raise {A} e.

#[export] Instance result_ret : MRet result := @Return.
#[export] Instance result_bind : MBind result :=
  fun A B f m => match m with Return a => f a | Raise e => Raise e end.

(** A [for] loop whose body may raise. *)
Fixpoint foldM {S X : Type} (f : S -> X -> result S) (xs : list X) (s : S)
  : result S :=
  match xs with
  | [] => Return s
  | x :: xs' => s' ← f s x; foldM f xs' s'
  end.

(** Truth value of a [bytes] object: empty is falsy. *)
Definition truthy (b : bytes) : bool :=
  match b with [] => false | _ :: _ => true end.

(** ** The AES block cipher (FIPS 197)

    [Cipher(AES(key), ECB())] of the [cryptography] package, which
    [keywrap.py] runs one 16-byte block at a time.  Bytes are [Byte.byte];
    the state is four columns of four bytes. *)

Module AES.

Definition byte_of_N (n : N) : byte :=
  match Byte.of_N n with Some b => b | None => x00 end.

(** Addition in GF(2^8). *)
Definition bxor (a b : byte) : byte :=
  byte_of_N (N.lxor (Byte.to_N a) (Byte.to_N b)).

(** Multiplication by x modulo x^8 + x^4 + x^3 + x + 1. *)
Definition xtime (a : byte) : byte :=
  let n := Byte.to_N a in
  byte_of_N (N.lxor ((2 * n) mod 256) (if (128 <=? n)%N then 27 else 0)).

Definition all_bytes : list byte :=
  map (fun i => byte_of_N (N.of_nat i)) (seq 0 256).

Fixpoint gmul_loop (fuel : nat) (a : byte) (b : N) (acc : byte) : byte :=
  match fuel with
  | O => acc
  | S fuel' =>
      gmul_loop fuel' (xtime a) (N.div2 b)
                (if N.odd b then bxor acc a else acc)
  end.

(** Multiplication in GF(2^8). *)
Definition gmul (a b : byte) : byte := gmul_loop 8 a (Byte.to_N b) x00.

Definition gsquare (a : byte) : byte := gmul a a.

(** The multiplicative inverse, [a^254] (and 0 for 0). *)
Definition ginv (a : byte) : byte :=
  let a2 := gsquare a in
  let a4 := gsquare a2 in
  let a8 := gsquare a4 in
  let a16 := gsquare a8 in
  let a32 := gsquare a16 in
  let a64 := gsquare a32 in
  let a128 := gsquare a64 in
  gmul a128 (gmul a64 (gmul a32 (gmul a16 (gmul a8 (gmul a4 a2))))).

Definition rotl8 (a : byte) (k : N) : byte :=
  let n := Byte.to_N a in
  byte_of_N (N.lor (N.shiftl n k mod 256) (N.shiftr n (8 - k))).

Definition affine (a : byte) : byte :=
  bxor a (bxor (rotl8 a 1) (bxor (rotl8 a 2) (bxor (rotl8 a 3) (bxor (rotl8 a 4) x63)))).

(** The S-box: the inverse in GF(2^8) followed by the affine map. *)
Definition sbox_table : list byte :=
  Eval vm_compute in map (fun a => affine (ginv a)) all_bytes.

Definition sbox (a : byte) : byte := nth (Byte.to_nat a) sbox_table x00.

Definition inv_sbox_table : list byte :=
  Eval vm_compute in
    map (fun y => match find (fun x => Byte.eqb (sbox x) y) all_bytes with
                  | Some x => x | None => x00 end) all_bytes.

Definition inv_sbox (a : byte) : byte := nth (Byte.to_nat a) inv_sbox_table x00.

Definition word : Type := byte * byte * byte * byte.
Definition state : Type := word * word * word * word.

Definition wmap (f : byte -> byte) (w : word) : word :=
  let '(a, b, c, d) := w in (f a, f b, f c, f d).
Definition wxor (v w : word) : word :=
  let '(a, b, c, d) := v in let '(a', b', c', d') := w in
  (bxor a a', bxor b b', bxor c c', bxor d d').

Definition sub_word : word -> word := wmap sbox.
Definition rot_word (w : word) : word := let '(a, b, c, d) := w in (b, c, d, a).

Definition smap (f : word -> word) (s : state) : state :=
  let '(c0, c1, c2, c3) := s in (f c0, f c1, f c2, f c3).

Definition sub_bytes : state -> state := smap (wmap sbox).
Definition inv_sub_bytes : state -> state := smap (wmap inv_sbox).

Definition shift_rows (s : state) : state :=
  let '((a0, a1, a2, a3), (b0, b1, b2, b3), (c0, c1, c2, c3), (d0, d1, d2, d3)) := s in
  ((a0, b1, c2, d3), (b0, c1, d2, a3), (c0, d1, a2, b3), (d0, a1, b2, c3)).
Definition inv_shift_rows (s : state) : state :=
  let '((a0, a1, a2, a3), (b0, b1, b2, b3), (c0, c1, c2, c3), (d0, d1, d2, d3)) := s in
  ((a0, d1, c2, b3), (b0, a1, d2, c3), (c0, b1, a2, d3), (d0, c1, b2, a3)).

Definition m2 : byte -> byte := xtime.
Definition m3 (a : byte) : byte := bxor (xtime a) a.
Definition m9 (a : byte) : byte := bxor (xtime (xtime (xtime a))) a.
Definition m11 (a : byte) : byte := bxor (xtime (xtime (xtime a))) (bxor (xtime a) a).
Definition m13 (a : byte) : byte := bxor (xtime (xtime (xtime a))) (bxor (xtime (xtime a)) a).
Definition m14 (a : byte) : byte :=
  bxor (xtime (xtime (xtime a))) (bxor (xtime (xtime a)) (xtime a)).

Definition xor4 (a b c d : byte) : byte := bxor (bxor a b) (bxor c d).

Definition mix_column (w : word) : word :=
  let '(s0, s1, s2, s3) := w in
  (xor4 (m2 s0) (m3 s1) s2 s3,
   xor4 s0 (m2 s1) (m3 s2) s3,
   xor4 s0 s1 (m2 s2) (m3 s3),
   xor4 (m3 s0) s1 s2 (m2 s3)).
Definition inv_mix_column (w : word) : word :=
  let '(s0, s1, s2, s3) := w in
  (xor4 (m14 s0) (m11 s1) (m13 s2) (m9 s3),
   xor4 (m9 s0) (m14 s1) (m11 s2) (m13 s3),
   xor4 (m13 s0) (m9 s1) (m14 s2) (m11 s3),
   xor4 (m11 s0) (m13 s1) (m9 s2) (m14 s3)).

Definition mix_columns : state -> state := smap mix_column.
Definition inv_mix_columns : state -> state := smap inv_mix_column.

Definition add_round_key (rk s : state) : state :=
  let '(k0, k1, k2, k3) := rk in let '(c0, c1, c2, c3) := s in
  (wxor c0 k0, wxor c1 k1, wxor c2 k2, wxor c3 k3).

Definition zero_word : word := (x00, x00, x00, x00).

Fixpoint words_of_bytes (l : bytes) : list word :=
  match l with
  | a :: b :: c :: d :: rest => (a, b, c, d) :: words_of_bytes rest
  | _ => []
  end.

Definition rcon (i : nat) : word := (Nat.iter (i - 1) xtime x01, x00, x00, x00).

Fixpoint expand (fuel Nk i : nat) (w : list word) : list word :=
  match fuel with
  | O => w
  | S fuel' =>
      let temp := nth (i - 1) w zero_word in
      let temp' :=
        if (i mod Nk =? 0)%nat then wxor (sub_word (rot_word temp)) (rcon (i / Nk))
        else if ((6 <? Nk) && (i mod Nk =? 4))%nat then sub_word temp
        else temp in
      expand fuel' Nk (S i) (w ++ [wxor (nth (i - Nk) w zero_word) temp'])
  end.

Fixpoint round_keys (w : list word) : list state :=
  match w with
  | a :: b :: c :: d :: rest => (a, b, c, d) :: round_keys rest
  | _ => []
  end.

Definition key_expansion (key : bytes) : list state :=
  let w := words_of_bytes key in
  let Nk := List.length w in
  round_keys (expand (4 * (Nk + 7) - Nk) Nk Nk w).

Definition enc_round (s rk : state) : state :=
  add_round_key rk (mix_columns (shift_rows (sub_bytes s))).
Definition dec_round (rk s : state) : state :=
  inv_sub_bytes (inv_shift_rows (inv_mix_columns (add_round_key rk s))).

Fixpoint enc_rounds (s : state) (rks : list state) : state :=
  match rks with
  | [] => s
  | [rk] => add_round_key rk (shift_rows (sub_bytes s))
  | rk :: rest => enc_rounds (enc_round s rk) rest
  end.
Fixpoint dec_rounds (rks : list state) (s : state) : state :=
  match rks with
  | [] => s
  | [rk] => inv_sub_bytes (inv_shift_rows (add_round_key rk s))
  | rk :: rest => dec_round rk (dec_rounds rest s)
  end.

Definition cipher (rks : list state) (s : state) : state :=
  match rks with
  | [] => s
  | rk0 :: rest => enc_rounds (add_round_key rk0 s) rest
  end.
Definition inv_cipher (rks : list state) (s : state) : state :=
  match rks with
  | [] => s
  | rk0 :: rest => add_round_key rk0 (dec_rounds rest s)
  end.

Definition bytes_of_state (s : state) : bytes :=
  let '((a0, a1, a2, a3), (b0, b1, b2, b3), (c0, c1, c2, c3), (d0, d1, d2, d3)) := s in
  [a0; a1; a2; a3; b0; b1; b2; b3; c0; c1; c2; c3; d0; d1; d2; d3].

(** ECB mode over whole 16-byte blocks ([Cipher(AES(key), ECB())]): every
    complete block of [data] is transformed on its own; a trailing partial
    block stays buffered and produces no output. *)
Fixpoint ecb (f : state -> state) (data : bytes) : bytes :=
  match data with
  | a0 :: a1 :: a2 :: a3 :: b0 :: b1 :: b2 :: b3 ::
    c0 :: c1 :: c2 :: c3 :: d0 :: d1 :: d2 :: d3 :: rest =>
      bytes_of_state
        (f ((a0, a1, a2, a3), (b0, b1, b2, b3), (c0, c1, c2, c3), (d0, d1, d2, d3)))
      ++ ecb f rest
  | _ => []
  end.

Definition ecb_encrypt (key data : bytes) : bytes :=
  ecb (cipher (key_expansion key)) data.
Definition ecb_decrypt (key data : bytes) : bytes :=
  ecb (inv_cipher (key_expansion key)) data.

End AES.

(** ** [cryptography.hazmat.primitives.keywrap] (RFC 3394)

    The two functions [aes_key_wrap.py] imports.  They belong to the
    [cryptography] package, not to this repository; the model follows its
    index-based implementation of RFC 3394, section 2.2, with its input
    checks in their order. *)

Module keywrap.

(** [int.from_bytes(b, byteorder="big")] *)
Definition int_from_bytes (b : bytes) : N :=
  fold_left (fun acc x => (acc * 256 + Byte.to_N x)%N) b 0%N.

Fixpoint int_to_bytes (len : nat) (v : N) : bytes :=
  match len with
  | O => []
  | S len' => int_to_bytes len' (v / 256) ++ [AES.byte_of_N (v mod 256)]
  end.

(** [v.to_bytes(length=len, byteorder="big")] *)
Definition to_bytes (v : N) (len : nat) : result bytes :=
  if (v <? 256 ^ N.of_nat len)%N then Return (int_to_bytes len v)
  else Raise (OverflowError "int too big to convert").

(** [[data[i : i + 8] for i in range(0, len(data), 8)]] *)
Fixpoint chunks8 (data : bytes) : list bytes :=
  match data with
  | [] => []
  | a :: b :: c :: d :: e :: f :: g :: h :: rest =>
      [a; b; c; d; e; f; g; h] :: chunks8 rest
  | short => [short]
  end.

Definition aiv : bytes := [xa6; xa6; xa6; xa6; xa6; xa6; xa6; xa6].

(** Body of the inner loop of [_wrap_core]. *)
Definition wrap_step (wrapping_key : bytes) (n j : nat)
    (st : bytes * list bytes) (i : nat) : result (bytes * list bytes) :=
  let '(a, r) := st in
  let b := AES.ecb_encrypt wrapping_key (a ++ default [] (r !! i)) in
  a' ← to_bytes
         (N.lxor (int_from_bytes (take 8 b)) (N.of_nat (n * j + i + 1))) 8;
  mret (a', <[i := drop (length b - 8) b]> r).

Definition _wrap_core (wrapping_key a : bytes) (r : list bytes)
  : result bytes :=
  let n := length r in
  st ← foldM (fun st j => foldM (wrap_step wrapping_key n j) (seq 0 n) st)
         (seq 0 6) (a, r);
  mret (st.1 ++ concat st.2).

Definition aes_key_wrap (wrapping_key key_to_wrap : bytes) : result bytes :=
  if negb (bool_decide (length wrapping_key ∈ [16; 24; 32]%nat)) then
    Raise (ValueError "The wrapping key must be a valid AES key length")
  else if (length key_to_wrap <? 16)%nat then
    Raise (ValueError "The key to wrap must be at least 16 bytes")
  else if negb (length key_to_wrap mod 8 =? 0)%nat then
    Raise (ValueError "The key to wrap must be a multiple of 8 bytes")
  else
    _wrap_core wrapping_key aiv (chunks8 key_to_wrap).

(** Body of the inner loop of [_unwrap_core]. *)
Definition unwrap_step (wrapping_key : bytes) (n j : nat)
    (st : bytes * list bytes) (i : nat) : result (bytes * list bytes) :=
  let '(a, r) := st in
  a' ← to_bytes (N.lxor (int_from_bytes a) (N.of_nat (n * j + i + 1))) 8;
  let atr := a' ++ default [] (r !! i) in
  let b := AES.ecb_decrypt wrapping_key atr in
  mret (take 8 b, <[i := drop (length b - 8) b]> r).

Definition _unwrap_core (wrapping_key a : bytes) (r : list bytes)
  : result (bytes * list bytes) :=
  let n := length r in
  foldM (fun st j => foldM (unwrap_step wrapping_key n j) (rev (seq 0 n)) st)
    (rev (seq 0 6)) (a, r).

Definition aes_key_unwrap (wrapping_key wrapped_key : bytes) : result bytes :=
  if (length wrapped_key <? 24)%nat then
    Raise (InvalidUnwrap "Must be at least 24 bytes")
  else if negb (length wrapped_key mod 8 =? 0)%nat then
    Raise (InvalidUnwrap "The wrapped key must be a multiple of 8 bytes")
  else if negb (bool_decide (length wrapping_key ∈ [16; 24; 32]%nat)) then
    Raise (ValueError "The wrapping key must be a valid AES key length")
  else
    match chunks8 wrapped_key with
    | [] => Raise (OtherException "IndexError" "pop from empty list")
    | a :: r =>
        st ← _unwrap_core wrapping_key a r;
        if bool_decide (st.1 = aiv) then mret (concat st.2)
        else Raise (InvalidUnwrap "")
    end.

(** Loop invariant of [_wrap_core] and [_unwrap_core]: the register [a] and
    each of the [n] blocks of [r] are 64 bits wide. *)
Definition semiblocks (n : nat) (st : bytes * list bytes) : Prop :=
  length st.1 = 8%nat /\ length st.2 = n /\
  Forall (fun x => length x = 8%nat) st.2.

End keywrap.

(** ** CBOR values, header maps and typed keys *)

(** Values exchanged with the CBOR layer ([Any] in the source). *)
Inductive cbor : Type :=
| CInt (z : Z)
| CBytes (b : bytes)
| CText (s : string)
| CBool (b : bool)
| CNull
| CArray (items : list cbor)
| CMap (entries : list (cbor * cbor))
| CTag (t : Z) (v : cbor).

(** A [cbor2.CBORTag] object, with its attributes [tag] and [value]. *)
Record CBORTag : Type := { tag : Z; value : cbor }.

(** The data a [COSEKeyInterface] object exposes through its properties
    [kty], [alg], [kid], [key] and [key_ops]. *)
Record COSEKey : Type := {
  kty : Z;
  alg : Z;
  kid : option bytes;
  key : bytes;
  key_ops : list Z
}.

(** *** External collaborators

    The classes below are imported by the two modelled files but their code
    is not part of them; their methods are taken as parameters. *)

(** [cwt.cose_key.COSEKey] and [COSEKeyInterface]. [generate_nonce] draws
    random bytes or raises [NotImplementedError]; the parameter fixes the
    outcome of the call. *)
Class COSEKeyAPI : Type := {
  from_symmetric_key : bytes -> Z -> option bytes -> result COSEKey;
  to_dict : COSEKey -> result cbor;
  generate_nonce : COSEKey -> result bytes
}.

(** [cwt.cose.COSE]: [decode(data, key)] and
    [encode_and_encrypt(payload, key, protected, unprotected, nonce, out)]. *)
Class COSEEngine : Type := {
  cose_decode : cbor -> COSEKey -> result bytes;
  cose_encode_and_encrypt :
    bytes -> COSEKey -> gmap Z cbor -> gmap Z cbor -> bytes -> string ->
    result CBORTag
}.

(** [cwt.cbor_processor.CBORProcessor]. *)
Class CBORProcessor : Type := {
  _loads : bytes -> result cbor;
  _dumps : cbor -> result bytes
}.

(** [cwt.key_builder.KeyBuilder]. *)
Class KeyBuilder : Type := {
  from_dict : cbor -> result COSEKey
}.

(** Modelled from the spec: [COSEKey.from_symmetric_key] is not among the
    modelled files.  Section 6 gives its interface,
    [fromSymmetricKey(bytes, alg, kid) -> typed key]: a key it returns
    carries the given bytes, algorithm id and key id. *)
Definition builds_symmetric_keys `{COSEKeyAPI} : Prop :=
  forall (b : bytes) (a : Z) (i : option bytes) (k : COSEKey),
    from_symmetric_key b a i = Return k -> key k = b /\ alg k = a /\ kid k = i.

(** ** Recipient structures *)

(** Instance attributes of a [RecipientInterface] object. *)
Record Recipient : Type := {
  _protected : gmap Z cbor;
  _unprotected : gmap Z cbor;
  _ciphertext : bytes;
  _recipients : list cbor;
  _key_ops : list Z;
  _key : bytes;
  _alg : Z;
  _kid : option bytes
}.

Inductive attribute : Type :=
| attr_protected | attr_unprotected | attr_ciphertext | attr_recipients
| attr_key_ops | attr_key | attr_alg | attr_kid.

(** What a method call does besides returning: attribute assignments on
    [self] and calls to external functions, in program order. *)
Inductive event : Type :=
| SetAttr (a : attribute)
| Call (fn : string).

(** A method of a recipient object: given [self] it yields an outcome, the
    object after the call and the trace of the call. *)
Definition method (A : Type) : Type :=
  Recipient -> result A * Recipient * list event.

#[export] Instance method_ret : MRet method :=
  fun A a self => (Return a, self, []).
#[export] Instance method_bind : MBind method :=
  fun A B f m self =>
    let '(r, self1, t1) := m self in
    match r with
    | Return a => let '(r2, self2, t2) := f a self1 in (r2, self2, t1 ++ t2)
    | Raise e => (Raise e, self1, t1)
    end.

Definition raise {A : Type} (e : exception) : method A :=
  fun self => (Raise e, self, []).

Definition getattr {A : Type} (f : Recipient -> A) : method A :=
  fun self => (Return (f self), self, []).

(** [self._ciphertext = v] *)
Definition set_ciphertext (v : bytes) : method unit :=
  fun self =>
    (Return tt,
     {| _protected := _protected self; _unprotected := _unprotected self;
        _ciphertext := v; _recipients := _recipients self;
        _key_ops := _key_ops self; _key := _key self; _alg := _alg self;
        _kid := _kid self |},
     [SetAttr attr_ciphertext]).

(** A call to an external function. *)
Definition call {A : Type} (fn : string) (r : result A) : method A :=
  fun self => (r, self, [Call fn]).

(** [try: body / except Exception as err: handler err] *)
Definition try_except {A : Type} (body : method A)
    (handler : exception -> method A) : method A :=
  fun self =>
    let '(r, self1, t1) := body self in
    match r with
    | Return a => (Return a, self1, t1)
    | Raise err =>
        let '(r2, self2, t2) := handler err self1 in (r2, self2, t1 ++ t2)
    end.

Module RecipientInterface.

(** Modelled from the spec: [RecipientInterface.__init__] is not among the
    modelled files.  Section 4.1: it is constructed from (protected,
    unprotected, ciphertext, nested recipients, key_ops, key bytes), extracts
    and stores the algorithm id from [protected[1]], fails with
    InvalidArgument if it is absent, and exposes [kid] from the unprotected
    key-id label 4.  The message is the one the tests of the sibling
    variants expect. *)
Definition __init__ (protected unprotected : gmap Z cbor) (ciphertext : bytes)
    (recipients : list cbor) (key_ops : list Z) (key : bytes)
  : result Recipient :=
  match protected !! 1 with
  | Some (CInt a) =>
      Return
        {| _protected := protected; _unprotected := unprotected;
           _ciphertext := ciphertext; _recipients := recipients;
           _key_ops := key_ops; _key := key; _alg := a;
           _kid := match unprotected !! 4 with
                   | Some (CBytes b) => Some b
                   | _ => None
                   end |}
  | _ => Raise (ValueError "alg(1) not found.")
  end.

End RecipientInterface.

Module AESKeyWrap.

(** The three branches of [__init__] share this check:
    [if self._key and len(self._key) != size: raise ValueError(...)]. *)
Definition check_key_length (self : Recipient) (size : nat) : result Recipient :=
  if truthy (_key self) && negb (length (_key self) =? size)%nat then
    Raise (ValueError
             ("Invalid key length: " +:+ pretty (length (_key self)) +:+ "."))
  else Return self.

Definition __init__ (protected unprotected : gmap Z cbor) (ciphertext : bytes)
    (recipients : list cbor) (key_ops : list Z) (key : bytes)
  : result Recipient :=
  self ← RecipientInterface.__init__ protected unprotected ciphertext
           recipients key_ops key;
  if _alg self =? -3 then check_key_length self 16
  else if _alg self =? -4 then check_key_length self 24
  else if _alg self =? -5 then check_key_length self 32
  else Raise (ValueError
                ("Unknown alg(3) for AES key wrap: " +:+ pretty (_alg self)
                 +:+ ".")).

(** [recipient_key], [alg] and [context] are accepted and never read.  A
    key object is truthy, so [not key] holds for [None] only. *)
Definition encode_key (k recipient_key : option COSEKey) (a : option Z)
    (context : option cbor) : method COSEKey :=
  match k with
  | None => raise (ValueError "key should be set.")
  | Some k =>
      try_except
        (wrapping_key ← getattr _key;
         wrapped ← call "aes_key_wrap"
                     (keywrap.aes_key_wrap wrapping_key (key k));
         set_ciphertext wrapped)
        (fun err => raise (EncodeError "Failed to wrap key." (Some err)));;
      mret k
  end.

(** [if not alg] holds for [None] and for [0]. [context] is never read. *)
Definition decode_key `{COSEKeyAPI} (k : COSEKey) (a : option Z)
    (context : option cbor) : method COSEKey :=
  match a with
  | None | Some 0 => raise (ValueError "alg should be set.")
  | Some a =>
      try_except
        (wrapped ← getattr _ciphertext;
         unwrapped ← call "aes_key_unwrap"
                       (keywrap.aes_key_unwrap (key k) wrapped);
         recipient_kid ← getattr _kid;
         call "from_symmetric_key"
           (from_symmetric_key unwrapped a recipient_kid))
        (fun err => raise (DecodeError "Failed to decode key." (Some err)))
  end.

End AESKeyWrap.

(** ** The encrypted COSE key envelope *)

Module EncryptedCOSEKey.

Section Methods.
Context `{COSEKeyAPI} `{COSEEngine} `{CBORProcessor} `{KeyBuilder}.

Definition decode (envelope : cbor) (encryption_key : COSEKey)
  : result COSEKey :=
  plaintext ← cose_decode (CTag 16 envelope) encryption_key;
  res ← _loads plaintext;
  from_dict res.

(** [tagged] is accepted and never read. *)
Definition encode (k encryption_key : COSEKey) (nonce : bytes) (tagged : bool)
  : result cbor :=
  let protected : gmap Z cbor := {[ 1 := CInt (alg encryption_key) ]} in
  let unprotected : gmap Z cbor :=
    match kid encryption_key with
    | Some (b :: bs) => {[ 4 := CBytes (b :: bs) ]}
    | _ => ∅
    end in
  nonce ← (if truthy nonce then Return nonce
           else match generate_nonce encryption_key with
                | Raise (NotImplementedError _) =>
                    Raise (ValueError
                      "Nonce generation is not supported for the key. Set a nonce explicitly.")
                | outcome => outcome
                end);
  let unprotected := <[ 5 := CBytes nonce ]> unprotected in
  d ← to_dict k;
  b_payload ← _dumps d;
  res ← cose_encode_and_encrypt b_payload encryption_key protected
          unprotected nonce "cbor2/CBORTag";
  mret (value res).

End Methods.

End EncryptedCOSEKey.

(** ** Concrete inputs

    Test vector 4.1 of RFC 3394 and stand-ins for the external collaborators,
    used to run the statements below on concrete inputs. *)

Module Fixtures.

Definition rfc3394_kek : bytes :=
  [x00; x01; x02; x03; x04; x05; x06; x07; x08; x09; x0a; x0b; x0c; x0d; x0e; x0f].
Definition rfc3394_key_data : bytes :=
  [x00; x11; x22; x33; x44; x55; x66; x77; x88; x99; xaa; xbb; xcc; xdd; xee; xff].
Definition rfc3394_wrapped : bytes :=
  [x1f; xa6; x8b; x0a; x81; x12; xb4; x47; xae; xf3; x4b; xd8;
   xfb; x5a; x7b; x82; x9d; x3e; x86; x23; x71; xd2; xcf; xe5].

Definition symmetric (a : Z) (i : option bytes) (b : bytes) : COSEKey :=
  {| kty := 4; alg := a; kid := i; key := b; key_ops := [] |}.

(** The content-encryption key to transport and the key that carries the
    shared secret. *)
Definition cek : COSEKey := symmetric 1 None rfc3394_key_data.
Definition kek : COSEKey := symmetric (-3) (Some [x30; x31]) rfc3394_kek.

(** A key factory that builds every key it is asked for; [nonce] is what
    [generate_nonce] answers. *)
Definition plain_keys (nonce : result bytes) : COSEKeyAPI :=
  {| from_symmetric_key b a i := Return (symmetric a i b);
     to_dict k := Return (CMap [(CInt 3, CInt (alg k)); (CInt (-1), CBytes (key k))]);
     generate_nonce _ := nonce |}.

(** A key factory that rejects every request. *)
Definition no_keys : COSEKeyAPI :=
  {| from_symmetric_key _ _ _ := Raise (ValueError "Unsupported or unknown alg(3).");
     to_dict _ := Raise (OtherException "TypeError" "");
     generate_nonce _ := Raise (NotImplementedError "") |}.

Definition header_entries (h : gmap Z cbor) : list (cbor * cbor) :=
  (fun e => (CInt e.1, e.2)) <$> map_to_list h.

(** An engine that leaves the payload in the clear: it answers the array
    [[protected, unprotected, payload]] under tag 16 and reads the payload
    back from such an envelope. *)
Definition clear_engine : COSEEngine :=
  {| cose_decode data _ :=
       match data with
       | CTag 16 (CArray [_; _; CBytes payload]) => Return payload
       | _ => Raise (DecodeError "Failed to decode." None)
       end;
     cose_encode_and_encrypt payload _ protected unprotected _ _ :=
       Return {| tag := 16;
                 value := CArray [CMap (header_entries protected);
                                  CMap (header_entries unprotected);
                                  CBytes payload] |} |}.

(** An engine whose every call fails authentication. *)
Definition failing_engine : COSEEngine :=
  {| cose_decode _ _ := Raise (VerifyError "Failed to verify." None);
     cose_encode_and_encrypt _ _ _ _ _ _ :=
       Raise (EncodeError "Failed to encrypt." None) |}.

(** A codec for the single shape the fixtures serialize: the byte string
    of a symmetric key, kept as it is. *)
Definition key_bytes_codec : CBORProcessor :=
  {| _loads b := Return (CMap [(CInt (-1), CBytes b)]);
     _dumps v :=
       match v with
       | CMap [_; (CInt (-1), CBytes b)] => Return b
       | _ => Raise (OtherException "CBOREncodeError" "")
       end |}.

Definition key_bytes_builder : KeyBuilder :=
  {| from_dict v :=
       match v with
       | CMap [(CInt (-1), CBytes b)] => Return (symmetric 1 None b)
       | _ => Raise (ValueError "Failed to build a key.")
       end |}.

(** The recipient [AESKeyWrap({1: -3}, {4: b"01"}, key=rfc3394_kek)] and the
    same recipient built without a key and with the wrapped key as its
    ciphertext, as when it is read off the wire. *)
Definition sender : Recipient :=
  {| _protected := {[ 1 := CInt (-3) ]};
     _unprotected := {[ 4 := CBytes [x30; x31] ]};
     _ciphertext := []; _recipients := []; _key_ops := [];
     _key := rfc3394_kek; _alg := -3; _kid := Some [x30; x31] |}.
Definition sender_after : Recipient :=
  {| _protected := {[ 1 := CInt (-3) ]};
     _unprotected := {[ 4 := CBytes [x30; x31] ]};
     _ciphertext := rfc3394_wrapped; _recipients := []; _key_ops := [];
     _key := rfc3394_kek; _alg := -3; _kid := Some [x30; x31] |}.
Definition receiver : Recipient :=
  {| _protected := {[ 1 := CInt (-3) ]};
     _unprotected := {[ 4 := CBytes [x30; x31] ]};
     _ciphertext := rfc3394_wrapped; _recipients := []; _key_ops := [];
     _key := []; _alg := -3; _kid := Some [x30; x31] |}.

End Fixtures.

(** The model reproduces the published test vectors: FIPS 197, appendix C
    (one block under a 128-, 192- and 256-bit key) and RFC 3394, sections
    4.1 and 4.3. *)
Module TestVectors.
Import Fixtures.

Definition key192 : bytes :=
  rfc3394_kek ++ [x10; x11; x12; x13; x14; x15; x16; x17].
Definition key256 : bytes :=
  key192 ++ [x18; x19; x1a; x1b; x1c; x1d; x1e; x1f].

End TestVectors.

(** * Properties *)

(** ** Test vectors *)

Section TestVectorRuns.
Import Fixtures TestVectors.

Example fips197_aes128 :
  AES.ecb_encrypt rfc3394_kek rfc3394_key_data
  = [x69; xc4; xe0; xd8; x6a; x7b; x04; x30; xd8; xcd; xb7; x80; x70; xb4; xc5; x5a].
Proof. vm_compute. reflexivity. Qed.

Example fips197_aes192 :
  AES.ecb_encrypt key192 rfc3394_key_data
  = [xdd; xa9; x7c; xa4; x86; x4c; xdf; xe0; x6e; xaf; x70; xa0; xec; x0d; x71; x91].
Proof. vm_compute. reflexivity. Qed.

Example fips197_aes256 :
  AES.ecb_encrypt key256 rfc3394_key_data
  = [x8e; xa2; xb7; xca; x51; x67; x45; xbf; xea; xfc; x49; x90; x4b; x49; x60; x89].
Proof. vm_compute. reflexivity. Qed.

Example rfc3394_wrap_128 :
  keywrap.aes_key_wrap rfc3394_kek rfc3394_key_data = Return rfc3394_wrapped.
Proof. vm_compute. reflexivity. Qed.

Example rfc3394_wrap_256 :
  keywrap.aes_key_wrap key256 rfc3394_key_data
  = Return [x64; xe8; xc3; xf9; xce; x0f; x5b; xa2; x63; xe9; x77; x79;
            x05; x81; x8a; x2a; x93; xc8; x19; x1e; x7d; x6e; x8a; xe7].
Proof. vm_compute. reflexivity. Qed.

Example rfc3394_unwrap_128 :
  keywrap.aes_key_unwrap rfc3394_kek rfc3394_wrapped = Return rfc3394_key_data.
Proof. vm_compute. reflexivity. Qed.

End TestVectorRuns.

(** ** The AES block cipher is invertible *)

Module AESFacts.
Import AES.

Lemma all_bytes_complete (b : byte) : In b all_bytes.
Proof.
  assert (Hb : existsb (Byte.eqb b) all_bytes = true)
    by (destruct b; vm_compute; reflexivity).
  apply existsb_exists in Hb as (x & Hx & Heq).
  apply Byte.byte_dec_bl in Heq. now subst.
Qed.

Lemma byte_forall (f : byte -> bool) :
  forallb f all_bytes = true -> forall b, f b = true.
Proof.
  intros Hall b. rewrite forallb_forall in Hall.
  apply Hall, all_bytes_complete.
Qed.

Lemma byte_forall2 (f : byte -> byte -> bool) :
  forallb (fun a => forallb (f a) all_bytes) all_bytes = true ->
  forall a b, f a b = true.
Proof.
  intros Hall a b.
  apply (byte_forall (f a)).
  apply (byte_forall (fun a => forallb (f a) all_bytes) Hall).
Qed.

(** Equality of two byte-valued functions of one byte (or of two), checked
    on all 256 (or 65536) arguments. *)
Ltac byte_enum :=
  let a := fresh "a" in
  intros a; apply Byte.byte_dec_bl; revert a;
  match goal with
  | |- forall a : byte, Byte.eqb (@?F a) (@?G a) = true =>
      apply (byte_forall (fun a => Byte.eqb (F a) (G a)))
  end;
  vm_compute; reflexivity.

Ltac byte_enum2 F G :=
  let a := fresh "a" in let b := fresh "b" in
  intros a b; apply Byte.byte_dec_bl;
  apply (byte_forall2 (fun a b => Byte.eqb (F a b) (G a b)));
  vm_compute; reflexivity.

Lemma to_N_bxor : forall a b,
  Byte.to_N (bxor a b) = N.lxor (Byte.to_N a) (Byte.to_N b).
Proof.
  intros a b. apply N.eqb_eq.
  apply (byte_forall2
           (fun a b => N.eqb (Byte.to_N (bxor a b))
                             (N.lxor (Byte.to_N a) (Byte.to_N b)))).
  vm_compute; reflexivity.
Qed.

Lemma to_N_inj a b : Byte.to_N a = Byte.to_N b -> a = b.
Proof.
  intros Heq. pose proof (Byte.of_to_N a) as Ha.
  rewrite Heq, Byte.of_to_N in Ha. congruence.
Qed.

Lemma bxor_comm a b : bxor a b = bxor b a.
Proof. apply to_N_inj. rewrite !to_N_bxor. apply N.lxor_comm. Qed.

Lemma bxor_assoc a b c : bxor a (bxor b c) = bxor (bxor a b) c.
Proof. apply to_N_inj. rewrite !to_N_bxor. symmetry. apply N.lxor_assoc. Qed.

Lemma bxor_0_r a : bxor a x00 = a.
Proof. apply to_N_inj. rewrite to_N_bxor. apply N.lxor_0_r. Qed.

Lemma bxor_nilpotent a : bxor a a = x00.
Proof. apply to_N_inj. rewrite to_N_bxor. apply N.lxor_nilpotent. Qed.

Lemma bxor_cancel_r a k : bxor (bxor a k) k = a.
Proof. now rewrite <- bxor_assoc, bxor_nilpotent, bxor_0_r. Qed.

Lemma bxor_interchange a b c d :
  bxor (bxor a b) (bxor c d) = bxor (bxor a c) (bxor b d).
Proof.
  rewrite <- !bxor_assoc. f_equal.
  rewrite !bxor_assoc. f_equal. apply bxor_comm.
Qed.

Lemma xtime_bxor : forall a b, xtime (bxor a b) = bxor (xtime a) (xtime b).
Proof. byte_enum2 (fun a b => xtime (bxor a b)) (fun a b => bxor (xtime a) (xtime b)). Qed.

Lemma inv_sbox_sbox : forall a, inv_sbox (sbox a) = a.
Proof. byte_enum. Qed.


Lemma xor4_linear (f : byte -> byte) :
  (forall a b, f (bxor a b) = bxor (f a) (f b)) ->
  forall a b c d, f (xor4 a b c d) = xor4 (f a) (f b) (f c) (f d).
Proof. intros Hf a b c d. unfold xor4. now rewrite !Hf. Qed.

Lemma xor4_transpose a b c d e f g h i j k l m n o p :
  xor4 (xor4 a b c d) (xor4 e f g h) (xor4 i j k l) (xor4 m n o p)
  = xor4 (xor4 a e i m) (xor4 b f j n) (xor4 c g k o) (xor4 d h l p).
Proof.
  unfold xor4.
  rewrite (bxor_interchange (bxor a b) (bxor c d)).
  rewrite (bxor_interchange (bxor i j) (bxor k l)).
  rewrite (bxor_interchange a b e f), (bxor_interchange c d g h).
  rewrite (bxor_interchange i j m n), (bxor_interchange k l o p).
  rewrite (bxor_interchange (bxor (bxor a e) (bxor b f))).
  rewrite (bxor_interchange (bxor a e) (bxor b f)).
  rewrite (bxor_interchange (bxor c g) (bxor d h)).
  reflexivity.
Qed.

Lemma xor4_first a : xor4 a x00 x00 x00 = a.
Proof. unfold xor4. now rewrite (bxor_0_r x00), !bxor_0_r. Qed.
Lemma xor4_second a : xor4 x00 a x00 x00 = a.
Proof. unfold xor4. now rewrite (bxor_comm x00 a), (bxor_0_r x00), !bxor_0_r. Qed.
Lemma xor4_third a : xor4 x00 x00 a x00 = a.
Proof. unfold xor4. now rewrite (bxor_0_r x00), (bxor_comm x00), !bxor_0_r. Qed.
Lemma xor4_fourth a : xor4 x00 x00 x00 a = a.
Proof. unfold xor4. now rewrite (bxor_0_r x00), (bxor_comm x00 a), (bxor_comm x00), !bxor_0_r. Qed.

Lemma m2_bxor a b : m2 (bxor a b) = bxor (m2 a) (m2 b).
Proof. apply xtime_bxor. Qed.
Lemma m3_bxor a b : m3 (bxor a b) = bxor (m3 a) (m3 b).
Proof. unfold m3. rewrite xtime_bxor. apply bxor_interchange. Qed.
Lemma m9_bxor a b : m9 (bxor a b) = bxor (m9 a) (m9 b).
Proof. unfold m9. rewrite !xtime_bxor. apply bxor_interchange. Qed.
Lemma m11_bxor a b : m11 (bxor a b) = bxor (m11 a) (m11 b).
Proof.
  unfold m11. rewrite !xtime_bxor.
  rewrite (bxor_interchange (xtime a)). apply bxor_interchange.
Qed.
Lemma m13_bxor a b : m13 (bxor a b) = bxor (m13 a) (m13 b).
Proof.
  unfold m13. rewrite !xtime_bxor.
  rewrite (bxor_interchange (xtime (xtime a))). apply bxor_interchange.
Qed.
Lemma m14_bxor a b : m14 (bxor a b) = bxor (m14 a) (m14 b).
Proof.
  unfold m14. rewrite !xtime_bxor.
  rewrite (bxor_interchange (xtime (xtime a))). apply bxor_interchange.
Qed.

(** The product of the two circulant matrices is the identity: each entry,
    as a function of one byte, is checked on all 256 bytes. *)
Lemma coef_diag0 : forall a, xor4 (m14 (m2 a)) (m11 a) (m13 a) (m9 (m3 a)) = a.
Proof. byte_enum. Qed.
Lemma coef_diag1 : forall a, xor4 (m9 (m3 a)) (m14 (m2 a)) (m11 a) (m13 a) = a.
Proof. byte_enum. Qed.
Lemma coef_diag2 : forall a, xor4 (m13 a) (m9 (m3 a)) (m14 (m2 a)) (m11 a) = a.
Proof. byte_enum. Qed.
Lemma coef_diag3 : forall a, xor4 (m11 a) (m13 a) (m9 (m3 a)) (m14 (m2 a)) = a.
Proof. byte_enum. Qed.

Lemma coef_off1_0 : forall a, xor4 (m14 (m3 a)) (m11 (m2 a)) (m13 a) (m9 a) = x00.
Proof. byte_enum. Qed.
Lemma coef_off1_1 : forall a, xor4 (m9 a) (m14 (m3 a)) (m11 (m2 a)) (m13 a) = x00.
Proof. byte_enum. Qed.
Lemma coef_off1_2 : forall a, xor4 (m13 a) (m9 a) (m14 (m3 a)) (m11 (m2 a)) = x00.
Proof. byte_enum. Qed.
Lemma coef_off1_3 : forall a, xor4 (m11 (m2 a)) (m13 a) (m9 a) (m14 (m3 a)) = x00.
Proof. byte_enum. Qed.

Lemma coef_off2_0 : forall a, xor4 (m14 a) (m11 (m3 a)) (m13 (m2 a)) (m9 a) = x00.
Proof. byte_enum. Qed.
Lemma coef_off2_1 : forall a, xor4 (m9 a) (m14 a) (m11 (m3 a)) (m13 (m2 a)) = x00.
Proof. byte_enum. Qed.
Lemma coef_off2_2 : forall a, xor4 (m13 (m2 a)) (m9 a) (m14 a) (m11 (m3 a)) = x00.
Proof. byte_enum. Qed.
Lemma coef_off2_3 : forall a, xor4 (m11 (m3 a)) (m13 (m2 a)) (m9 a) (m14 a) = x00.
Proof. byte_enum. Qed.

Lemma coef_off3_0 : forall a, xor4 (m14 a) (m11 a) (m13 (m3 a)) (m9 (m2 a)) = x00.
Proof. byte_enum. Qed.
Lemma coef_off3_1 : forall a, xor4 (m9 (m2 a)) (m14 a) (m11 a) (m13 (m3 a)) = x00.
Proof. byte_enum. Qed.
Lemma coef_off3_2 : forall a, xor4 (m13 (m3 a)) (m9 (m2 a)) (m14 a) (m11 a) = x00.
Proof. byte_enum. Qed.
Lemma coef_off3_3 : forall a, xor4 (m11 a) (m13 (m3 a)) (m9 (m2 a)) (m14 a) = x00.
Proof. byte_enum. Qed.

Lemma inv_mix_column_mix_column w : inv_mix_column (mix_column w) = w.
Proof.
  destruct w as [[[s0 s1] s2] s3]. unfold inv_mix_column, mix_column.
  rewrite !(xor4_linear m9 m9_bxor), !(xor4_linear m11 m11_bxor),
    !(xor4_linear m13 m13_bxor), !(xor4_linear m14 m14_bxor).
  repeat apply f_equal2.
  - rewrite xor4_transpose, coef_diag0, coef_off1_0, coef_off2_0, coef_off3_0.
    apply xor4_first.
  - rewrite xor4_transpose, coef_off3_1, coef_diag1, coef_off1_1, coef_off2_1.
    apply xor4_second.
  - rewrite xor4_transpose, coef_off2_2, coef_off3_2, coef_diag2, coef_off1_2.
    apply xor4_third.
  - rewrite xor4_transpose, coef_off1_3, coef_off2_3, coef_off3_3, coef_diag3.
    apply xor4_fourth.
Qed.

Lemma wxor_cancel_r w k : wxor (wxor w k) k = w.
Proof.
  destruct w as [[[a b] c] d], k as [[[a' b'] c'] d']. unfold wxor.
  now rewrite !bxor_cancel_r.
Qed.

Lemma add_round_key_involutive rk s : add_round_key rk (add_round_key rk s) = s.
Proof.
  destruct rk as [[[k0 k1] k2] k3], s as [[[c0 c1] c2] c3].
  unfold add_round_key. now rewrite !wxor_cancel_r.
Qed.

Lemma inv_sub_bytes_sub_bytes s : inv_sub_bytes (sub_bytes s) = s.
Proof.
  destruct s as [[[[[[a0 a1] a2] a3] [[[b0 b1] b2] b3]] [[[c0 c1] c2] c3]]
                   [[[d0 d1] d2] d3]].
  unfold inv_sub_bytes, sub_bytes, smap, wmap. now rewrite !inv_sbox_sbox.
Qed.

Lemma inv_shift_rows_shift_rows s : inv_shift_rows (shift_rows s) = s.
Proof.
  now destruct s as [[[[[[a0 a1] a2] a3] [[[b0 b1] b2] b3]] [[[c0 c1] c2] c3]]
                       [[[d0 d1] d2] d3]].
Qed.

Lemma inv_mix_columns_mix_columns s : inv_mix_columns (mix_columns s) = s.
Proof.
  destruct s as [[[c0 c1] c2] c3]. unfold inv_mix_columns, mix_columns, smap.
  now rewrite !inv_mix_column_mix_column.
Qed.

Lemma dec_round_enc_round rk s : dec_round rk (enc_round s rk) = s.
Proof.
  unfold dec_round, enc_round.
  now rewrite add_round_key_involutive, inv_mix_columns_mix_columns,
    inv_shift_rows_shift_rows, inv_sub_bytes_sub_bytes.
Qed.

Lemma dec_rounds_enc_rounds rks : forall s, dec_rounds rks (enc_rounds s rks) = s.
Proof.
  induction rks as [|rk rest IH]; intros s; [reflexivity|].
  destruct rest as [|rk' rest'].
  - simpl. now rewrite add_round_key_involutive, inv_shift_rows_shift_rows,
      inv_sub_bytes_sub_bytes.
  - change (dec_round rk (dec_rounds (rk' :: rest')
                            (enc_rounds (enc_round s rk) (rk' :: rest'))) = s).
    now rewrite IH, dec_round_enc_round.
Qed.

Lemma inv_cipher_cipher rks s : inv_cipher rks (cipher rks s) = s.
Proof.
  destruct rks as [|rk0 rest]; [reflexivity|]. unfold inv_cipher, cipher.
  now rewrite dec_rounds_enc_rounds, add_round_key_involutive.
Qed.

Lemma length_bytes_of_state s : length (bytes_of_state s) = 16%nat.
Proof.
  now destruct s as [[[[[[a0 a1] a2] a3] [[[b0 b1] b2] b3]] [[[c0 c1] c2] c3]]
                       [[[d0 d1] d2] d3]].
Qed.

Lemma ecb_block (f : state -> state) (data : bytes) :
  length data = 16%nat ->
  exists s, data = bytes_of_state s /\ ecb f data = bytes_of_state (f s).
Proof.
  intros Hlen.
  do 16 (destruct data as [|? data]; [discriminate|]).
  destruct data; [|discriminate].
  eexists (_, _, _, _, (_, _, _, _), (_, _, _, _), (_, _, _, _)).
  split; [reflexivity|]. simpl. apply app_nil_r.
Qed.

Lemma length_ecb_encrypt key data :
  length data = 16%nat -> length (ecb_encrypt key data) = 16%nat.
Proof.
  intros Hlen. unfold ecb_encrypt.
  destruct (ecb_block (cipher (key_expansion key)) data Hlen) as (s & _ & ->).
  apply length_bytes_of_state.
Qed.

Lemma ecb_decrypt_encrypt key data :
  length data = 16%nat -> ecb_decrypt key (ecb_encrypt key data) = data.
Proof.
  intros Hlen. unfold ecb_encrypt, ecb_decrypt.
  destruct (ecb_block (cipher (key_expansion key)) data Hlen) as (s & -> & ->).
  destruct (ecb_block (inv_cipher (key_expansion key))
              (bytes_of_state (cipher (key_expansion key) s))
              (length_bytes_of_state _)) as (s' & Hs' & ->).
  assert (s' = cipher (key_expansion key) s) as ->.
  { revert Hs'. generalize (cipher (key_expansion key) s). intros t.
    destruct t as [[[[[[a0 a1] a2] a3] [[[b0 b1] b2] b3]] [[[c0 c1] c2] c3]]
                     [[[d0 d1] d2] d3]],
             s' as [[[[[[a0' a1'] a2'] a3'] [[[b0' b1'] b2'] b3']]
                      [[[c0' c1'] c2'] c3']] [[[d0' d1'] d2'] d3']].
    simpl. congruence. }
  now rewrite inv_cipher_cipher.
Qed.

End AESFacts.

(** ** [aes_key_unwrap] inverts [aes_key_wrap] *)

Module ResultFacts.

Lemma bind_Return {A B : Type} (a : A) (f : A -> result B) :
  Return a ≫= f = f a.
Proof. reflexivity. Qed.

Lemma foldM_app {S X : Type} (f : S -> X -> result S) (xs ys : list X) (s : S) :
  foldM f (xs ++ ys) s = foldM f xs s ≫= foldM f ys.
Proof.
  revert s. induction xs as [|x xs IH]; intros s; simpl; [reflexivity|].
  destruct (f s x) as [s'|e]; simpl; [apply IH|reflexivity].
Qed.

(** A loop undone by the loop of the inverse body run backwards. *)
Lemma foldM_rev_inverse {S X : Type} (f g : S -> X -> result S)
    (I : S -> Prop) (P : X -> Prop) :
  (forall s x, I s -> P x ->
     exists s', f s x = Return s' /\ I s' /\ g s' x = Return s) ->
  forall xs s, Forall P xs -> I s ->
    exists s', foldM f xs s = Return s' /\ I s' /\
               foldM g (rev xs) s' = Return s.
Proof.
  intros Hstep xs. induction xs as [|x xs IH]; intros s HP HI.
  - exists s. simpl. auto.
  - inversion HP as [|? ? Hx Hxs]; subst.
    destruct (Hstep s x HI Hx) as (s1 & Hf & HI1 & Hg).
    destruct (IH s1 Hxs HI1) as (s2 & Hfs & HI2 & Hgs).
    exists s2. simpl. rewrite Hf. simpl. split; [exact Hfs|]. split; [exact HI2|].
    rewrite foldM_app, Hgs. simpl. now rewrite Hg.
Qed.

End ResultFacts.

Module KeyWrapFacts.
Import keywrap ResultFacts.

Lemma to_N_byte_of_N n : (n < 256)%N -> Byte.to_N (AES.byte_of_N n) = n.
Proof.
  intros Hn. unfold AES.byte_of_N.
  pose proof (Byte.to_of_N_option_map n) as Hopt.
  destruct (Byte.of_N n) as [b|] eqn:Hb.
  - now apply Byte.to_of_N.
  - simpl in Hopt. destruct (N.leb_spec n 255); [discriminate|lia].
Qed.

Lemma byte_of_N_to_N b : AES.byte_of_N (Byte.to_N b) = b.
Proof. unfold AES.byte_of_N. now rewrite Byte.of_to_N. Qed.

Lemma to_N_lt b : (Byte.to_N b < 256)%N.
Proof. pose proof (Byte.to_N_bounded b). lia. Qed.

Lemma int_from_bytes_snoc l b :
  int_from_bytes (l ++ [b]) = (int_from_bytes l * 256 + Byte.to_N b)%N.
Proof. unfold int_from_bytes. now rewrite fold_left_app. Qed.

Lemma int_from_bytes_bound l :
  (int_from_bytes l < 256 ^ N.of_nat (length l))%N.
Proof.
  induction l as [|b l IH] using rev_ind; [reflexivity|].
  rewrite int_from_bytes_snoc, length_app, Nat.add_1_r, Nat2N.inj_succ,
    N.pow_succ_r'.
  pose proof (to_N_lt b). lia.
Qed.

Lemma length_int_to_bytes n v : length (int_to_bytes n v) = n.
Proof.
  revert v. induction n as [|n IH]; intros v; simpl; [reflexivity|].
  rewrite length_app, IH. simpl. lia.
Qed.

Lemma int_to_bytes_from_bytes l :
  int_to_bytes (length l) (int_from_bytes l) = l.
Proof.
  induction l as [|b l IH] using rev_ind; [reflexivity|].
  rewrite int_from_bytes_snoc, length_app, Nat.add_1_r. simpl.
  pose proof (to_N_lt b) as Hb.
  replace ((int_from_bytes l * 256 + Byte.to_N b) / 256)%N
    with (int_from_bytes l)
    by (apply N.div_unique with (r := Byte.to_N b); lia).
  replace ((int_from_bytes l * 256 + Byte.to_N b) mod 256)%N
    with (Byte.to_N b)
    by (apply N.mod_unique with (q := int_from_bytes l); lia).
  now rewrite IH, byte_of_N_to_N.
Qed.

Lemma int_to_bytes_from_bytes_len n l :
  length l = n -> int_to_bytes n (int_from_bytes l) = l.
Proof. intros <-. apply int_to_bytes_from_bytes. Qed.

Lemma int_from_bytes_to_bytes n v :
  (v < 256 ^ N.of_nat n)%N -> int_from_bytes (int_to_bytes n v) = v.
Proof.
  revert v. induction n as [|n IH]; intros v Hv.
  - simpl in *. unfold int_from_bytes. simpl. lia.
  - rewrite Nat2N.inj_succ, N.pow_succ_r' in Hv. simpl.
    rewrite int_from_bytes_snoc, IH.
    + rewrite to_N_byte_of_N by (apply N.mod_lt; lia).
      pose proof (N.div_mod v 256). lia.
    + apply N.Div0.div_lt_upper_bound. lia.
Qed.

Lemma lxor_lt_pow2 a b k :
  (a < 2 ^ k)%N -> (b < 2 ^ k)%N -> (N.lxor a b < 2 ^ k)%N.
Proof.
  intros Ha Hb.
  destruct (N.eq_dec (N.lxor a b) 0%N) as [->|Hne]; [lia|].
  apply N.log2_lt_pow2; [lia|].
  pose proof (N.log2_lxor a b) as Hlog.
  assert (N.log2 a < k \/ a = 0)%N as Ha'
    by (destruct (N.eq_dec a 0%N); [auto|left; apply N.log2_lt_pow2; lia]).
  assert (N.log2 b < k \/ b = 0)%N as Hb'
    by (destruct (N.eq_dec b 0%N); [auto|left; apply N.log2_lt_pow2; lia]).
  destruct Ha' as [Ha'| ->], Hb' as [Hb'| ->].
  - lia.
  - rewrite N.lxor_0_r in *. simpl in Hlog. lia.
  - rewrite N.lxor_0_l in *. simpl in Hlog. lia.
  - now rewrite N.lxor_0_l in Hne.
Qed.

Lemma lxor_cancel_r a t : N.lxor (N.lxor a t) t = a.
Proof. now rewrite N.lxor_assoc, N.lxor_nilpotent, N.lxor_0_r. Qed.

(** Induction following the recursion of [chunks8]. *)
Lemma chunks8_ind (P : bytes -> Prop) :
  P [] ->
  (forall short, short <> [] -> (length short < 8)%nat -> P short) ->
  (forall a b c d e f g h rest,
      P rest -> P (a :: b :: c :: d :: e :: f :: g :: h :: rest)) ->
  forall l, P l.
Proof.
  intros Hnil Hshort Hstep l.
  remember (length l) as n eqn:Hn. revert l Hn.
  induction n as [n IH] using lt_wf_ind. intros l Hn.
  destruct l as [|a [|b [|c [|d [|e [|f [|g [|h rest]]]]]]]];
    try (apply Hshort; [discriminate|simpl; lia]).
  - apply Hnil.
  - apply Hstep. apply (IH (length rest)); [subst; simpl; lia|reflexivity].
Qed.

Lemma concat_chunks8 : forall data, concat (chunks8 data) = data.
Proof.
  apply chunks8_ind.
  - reflexivity.
  - intros short Hne Hlen.
    destruct short as [|a [|b [|c [|d [|e [|f [|g [|h rest]]]]]]]];
      try (simpl in Hlen; lia); try congruence; simpl; reflexivity.
  - intros a b c d e f g h rest IH. simpl. now rewrite IH.
Qed.

Lemma chunks8_aligned : forall data,
  (length data mod 8 = 0)%nat ->
  Forall (fun x => length x = 8%nat) (chunks8 data) /\
  (length data = 8 * length (chunks8 data))%nat.
Proof.
  apply (chunks8_ind (fun data => (length data mod 8 = 0)%nat ->
    Forall (fun x => length x = 8%nat) (chunks8 data) /\
    (length data = 8 * length (chunks8 data))%nat)).
  - intros _. split; [constructor|reflexivity].
  - intros short Hne Hlen Hmod. rewrite Nat.mod_small in Hmod by lia.
    destruct short; [congruence|discriminate].
  - intros a b c d e f g h rest IH Hmod.
    assert (length rest mod 8 = 0)%nat as Hrest.
    { simpl length in Hmod.
      replace (S (S (S (S (S (S (S (S (length rest)))))))))
        with (length rest + 1 * 8)%nat in Hmod by lia.
      now rewrite Nat.Div0.mod_add in Hmod. }
    destruct (IH Hrest) as [Hall Hlen].
    split; [constructor; [reflexivity|exact Hall]|].
    simpl length. lia.
Qed.

Lemma chunks8_concat (r : list bytes) :
  Forall (fun x => length x = 8%nat) r -> chunks8 (concat r) = r.
Proof.
  induction 1 as [|x r Hx _ IH]; [reflexivity|].
  do 8 (destruct x as [|? x]; [discriminate|]). destruct x; [|discriminate].
  simpl. now rewrite IH.
Qed.

Lemma length_concat8 (r : list bytes) :
  Forall (fun x => length x = 8%nat) r ->
  (length (concat r) = 8 * length r)%nat.
Proof.
  induction 1 as [|x r Hx _ IH]; [reflexivity|].
  simpl. rewrite length_app, IH, Hx. lia.
Qed.

Lemma to_bytes_8 v :
  (v < 2 ^ 64)%N -> to_bytes v 8 = Return (int_to_bytes 8 v).
Proof.
  intros Hv. unfold to_bytes.
  change (256 ^ N.of_nat 8)%N with (2 ^ 64)%N.
  destruct (N.ltb_spec v (2 ^ 64)); [reflexivity|lia].
Qed.

Lemma int_from_bytes_8 a : length a = 8%nat -> (int_from_bytes a < 2 ^ 64)%N.
Proof.
  intros Ha. pose proof (int_from_bytes_bound a) as Hb.
  rewrite Ha in Hb. exact Hb.
Qed.

Lemma unwrap_step_wrap_step kek n j st i :
  semiblocks n st -> (i < n)%nat -> (N.of_nat (n * j + i + 1) < 2 ^ 64)%N ->
  exists st', wrap_step kek n j st i = Return st' /\ semiblocks n st' /\
              unwrap_step kek n j st' i = Return st.
Proof.
  destruct st as [a r]. intros (Ha & Hr & Hall) Hi Ht. simpl in Ha, Hr, Hall.
  destruct (lookup_lt_is_Some_2 r i) as [ri Hri]; [lia|].
  assert (length ri = 8%nat) as Hlri
    by (apply (Forall_lookup_1 (fun x : bytes => length x = 8%nat) r i ri Hall Hri)).
  unfold wrap_step. cbv beta iota zeta. rewrite Hri. simpl default.
  set (b := AES.ecb_encrypt kek (a ++ ri)).
  assert (length (a ++ ri) = 16%nat) as Hin by (rewrite length_app; lia).
  assert (length b = 16%nat) as Hb by (apply AESFacts.length_ecb_encrypt, Hin).
  assert (length (take 8 b) = 8%nat) as Htake by (rewrite length_take; lia).
  set (t := N.of_nat (n * j + i + 1)) in *.
  pose proof (int_from_bytes_8 _ Htake) as Hm.
  rewrite to_bytes_8 by (apply lxor_lt_pow2; assumption).
  eexists. split; [reflexivity|]. split.
  - split; [apply length_int_to_bytes|]. simpl.
    split; [now rewrite length_insert|].
    apply Forall_insert; [exact Hall|]. rewrite length_drop. lia.
  - unfold unwrap_step. cbv beta iota zeta. fold t.
    rewrite int_from_bytes_to_bytes
      by (change (256 ^ N.of_nat 8)%N with (2 ^ 64)%N;
          apply lxor_lt_pow2; assumption).
    rewrite lxor_cancel_r, to_bytes_8 by exact Hm.
    rewrite bind_Return.
    rewrite list_lookup_insert_eq by lia.
    change (default [] (Some (drop (length b - 8) b)))
      with (drop (length b - 8) b).
    rewrite (int_to_bytes_from_bytes_len 8 (take 8 b)) by exact Htake.
    rewrite Hb. change (16 - 8)%nat with 8%nat. rewrite take_drop.
    subst b. rewrite AESFacts.ecb_decrypt_encrypt by exact Hin.
    rewrite length_app, Ha, Hlri. change (8 + 8 - 8)%nat with 8%nat.
    rewrite take_app_length', drop_app_length' by (symmetry; exact Ha).
    rewrite list_insert_insert_eq, list_insert_id by exact Hri.
    reflexivity.
Qed.

Lemma unwrap_core_wrap_core kek n st :
  semiblocks n st -> (N.of_nat (6 * n) < 2 ^ 64)%N ->
  exists st',
    foldM (fun st j => foldM (wrap_step kek n j) (seq 0 n) st) (seq 0 6) st
      = Return st' /\ semiblocks n st' /\
    foldM (fun st j => foldM (unwrap_step kek n j) (rev (seq 0 n)) st)
      (rev (seq 0 6)) st' = Return st.
Proof.
  intros Hst Hn.
  apply (foldM_rev_inverse _ _ (semiblocks n) (fun j => (j < 6)%nat)); auto.
  - intros s j Hs Hj.
    apply (foldM_rev_inverse _ _ (semiblocks n) (fun i => (i < n)%nat)); auto.
    + intros s' i Hs' Hi. apply unwrap_step_wrap_step; auto. nia.
    + apply Forall_forall. intros i Hin. apply elem_of_seq in Hin. lia.
  - apply Forall_forall. intros j Hin. apply elem_of_seq in Hin. lia.
Qed.

(** [aes_key_unwrap] inverts [aes_key_wrap] on every input the wrap accepts
    (RFC 3394, section 2.2). *)
Lemma aes_key_unwrap_wrap kek pt :
  length kek ∈ [16; 24; 32]%nat ->
  (16 <= length pt)%nat -> (length pt mod 8 = 0)%nat ->
  (N.of_nat (length pt) < 2 ^ 63)%N ->
  exists ct, aes_key_wrap kek pt = Return ct /\
             aes_key_unwrap kek ct = Return pt.
Proof.
  intros Hkek Hmin Hmod Hmax.
  destruct (chunks8_aligned pt Hmod) as [Hall Hlen].
  set (n := length (chunks8 pt)) in *.
  destruct (unwrap_core_wrap_core kek n (aiv, chunks8 pt)) as (st' & Hw & Hst' & Hu).
  { repeat split; try reflexivity; exact Hall. }
  { lia. }
  destruct st' as [a' r']. destruct Hst' as (Ha' & Hr' & Hall'). simpl in Ha', Hr', Hall'.
  exists (a' ++ concat r'). split.
  - unfold aes_key_wrap.
    rewrite (bool_decide_eq_true_2 _ Hkek), Hmod.
    destruct (Nat.ltb_spec (length pt) 16); [lia|].
    unfold _wrap_core. fold n. rewrite Hw. reflexivity.
  - assert (length (a' ++ concat r') = 8 * (n + 1))%nat as Hct
      by (rewrite length_app, length_concat8, Ha', Hr' by exact Hall'; lia).
    assert (length (a' ++ concat r') mod 8 = 0)%nat as Hctmod
      by (rewrite Hct, Nat.mul_comm; apply Nat.Div0.mod_mul).
    assert (chunks8 (a' ++ concat r') = a' :: r') as Hchunks.
    { change (a' ++ concat r') with (concat (a' :: r')).
      apply chunks8_concat. constructor; assumption. }
    unfold aes_key_unwrap.
    rewrite (bool_decide_eq_true_2 _ Hkek), Hctmod, Hchunks.
    destruct (Nat.ltb_spec (length (a' ++ concat r')) 24); [lia|].
    unfold _unwrap_core. rewrite Hr', Hu.
    rewrite bind_Return. cbv beta. unfold fst, snd.
    rewrite bool_decide_eq_true_2 by reflexivity.
    now rewrite concat_chunks8.
Qed.

End KeyWrapFacts.

(** * Claims about the AES key wrap recipient *)

Section AESKeyWrapClaims.
Import keywrap KeyWrapFacts Fixtures.

Ltac run_method :=
  cbv [AESKeyWrap.encode_key AESKeyWrap.decode_key try_except mbind
       method_bind getattr call set_ciphertext mret method_ret raise].

Lemma recognized_alg a : a ∈ [-3; -4; -5] <-> a = -3 \/ a = -4 \/ a = -5.
Proof. rewrite !elem_of_cons, elem_of_nil. tauto. Qed.

Lemma recognized_alg_size a (size : nat) :
  (a, size) ∈ [(-3, 16%nat); (-4, 24%nat); (-5, 32%nat)] <->
  (a = -3 /\ size = 16%nat) \/ (a = -4 /\ size = 24%nat) \/
  (a = -5 /\ size = 32%nat).
Proof.
  rewrite !elem_of_cons, elem_of_nil. split.
  - intros [H|[H|[H|[]]]]; injection H; auto.
  - intros [[-> ->] | [[-> ->] | [-> ->]]]; auto.
Qed.

Lemma base_init_Return protected unprotected ciphertext recipients key_ops key a :
  protected !! 1 = Some (CInt a) ->
  exists self,
    RecipientInterface.__init__ protected unprotected ciphertext recipients
      key_ops key = Return self /\
    _alg self = a /\ _key self = key /\ _ciphertext self = ciphertext /\
    _protected self = protected /\ _unprotected self = unprotected /\
    _recipients self = recipients /\ _key_ops self = key_ops.
Proof.
  intros Halg. unfold RecipientInterface.__init__. rewrite Halg.
  eexists. split; [reflexivity|]. simpl. auto 10.
Qed.

Lemma check_key_length_spec self size :
  AESKeyWrap.check_key_length self size =
  if decide (_key self = [] \/ length (_key self) = size) then Return self
  else Raise (ValueError ("Invalid key length: "
                          +:+ pretty (length (_key self)) +:+ ".")).
Proof.
  unfold AESKeyWrap.check_key_length.
  destruct (_key self) as [|b bs] eqn:Hkey; simpl truthy.
  - rewrite decide_True by auto. reflexivity.
  - rewrite andb_true_l.
    destruct (Nat.eqb_spec (length (b :: bs)) size) as [Heq|Hne]; simpl negb.
    + rewrite decide_True by auto. reflexivity.
    + rewrite decide_False; [reflexivity|]. intros [Hnil|Heq]; congruence.
Qed.

Lemma init_recognized protected unprotected ciphertext recipients key_ops key a size self :
  (a, size) ∈ [(-3, 16%nat); (-4, 24%nat); (-5, 32%nat)] ->
  RecipientInterface.__init__ protected unprotected ciphertext recipients
    key_ops key = Return self ->
  _alg self = a ->
  AESKeyWrap.__init__ protected unprotected ciphertext recipients key_ops key
  = AESKeyWrap.check_key_length self size.
Proof.
  intros Hin Hbase Ha. unfold AESKeyWrap.__init__. rewrite Hbase.
  change (Return self ≫= ?f) with (f self). cbv beta. rewrite Ha.
  apply recognized_alg_size in Hin.
  destruct Hin as [[-> ->] | [[-> ->] | [-> ->]]]; reflexivity.
Qed.

(** C10. For every algorithm id in {-3, -4, -5}, construction with the
    default, empty shared secret succeeds; and for any key, whenever
    construction reports "Invalid key length" the supplied key bytes
    are non-empty. *)
Theorem init_accepts_empty_key protected unprotected ciphertext recipients key_ops a :
  protected !! 1 = Some (CInt a) -> a ∈ [-3; -4; -5] ->
  (exists self,
      AESKeyWrap.__init__ protected unprotected ciphertext recipients key_ops []
      = Return self /\ _alg self = a /\ _key self = []) /\
  (forall (key : bytes) (n : nat),
      AESKeyWrap.__init__ protected unprotected ciphertext recipients key_ops key
      = Raise (ValueError ("Invalid key length: " +:+ pretty n +:+ ".")) ->
      key <> []).
Proof.
  intros Halg Hin.
  assert (exists size, (a, size) ∈ [(-3, 16%nat); (-4, 24%nat); (-5, 32%nat)])
    as [size Hsize].
  { apply recognized_alg in Hin. destruct Hin as [-> | [-> | ->]];
      [exists 16%nat|exists 24%nat|exists 32%nat];
      apply recognized_alg_size; auto. }
  assert (forall key, key = [] -> exists self,
    AESKeyWrap.__init__ protected unprotected ciphertext recipients key_ops key
    = Return self /\ _alg self = a /\ _key self = key) as Hempty.
  { intros key ->.
    destruct (base_init_Return protected unprotected ciphertext recipients
                key_ops [] a Halg) as (self & Hbase & Ha & Hk & _).
    exists self. rewrite (init_recognized _ _ _ _ _ _ a size self Hsize Hbase Ha).
    rewrite check_key_length_spec, decide_True by auto. auto. }
  split; [apply Hempty; reflexivity|].
  intros key n Hraise ->.
  destruct (Hempty [] eq_refl) as (self & Hret & _). congruence.
Qed.

Lemma init_accepts_empty_key_witness :
  (exists self,
      AESKeyWrap.__init__ {[ 1 := CInt (-4) ]} ∅ [] [] [] [] = Return self /\
      _alg self = -4 /\ _key self = []) /\
  (forall (key : bytes) (n : nat),
      AESKeyWrap.__init__ {[ 1 := CInt (-4) ]} ∅ [] [] [] key
      = Raise (ValueError ("Invalid key length: " +:+ pretty n +:+ ".")) ->
      key <> []).
Proof.
  apply (init_accepts_empty_key {[ 1 := CInt (-4) ]} ∅ [] [] [] (-4)).
  - reflexivity.
  - apply recognized_alg. auto.
Defined.

(** C2, as the code has it.  Construction with algorithm id [a] raises
    "Unknown alg(3) for AES key wrap: a." when [a] is none of -3, -4, -5; for
    a recognized id it raises "Invalid key length: n." exactly when the
    shared secret is non-empty and its length [n] differs from the required
    16, 24 or 32 bytes, and it succeeds otherwise, that is for a secret of
    the required length and for the empty secret. *)
Theorem init_validates_alg_and_key_length
    protected unprotected ciphertext recipients key_ops key a :
  protected !! 1 = Some (CInt a) ->
  (a ∉ [-3; -4; -5] ->
   AESKeyWrap.__init__ protected unprotected ciphertext recipients key_ops key
   = Raise (ValueError ("Unknown alg(3) for AES key wrap: " +:+ pretty a +:+ ".")))
  /\
  (forall size, (a, size) ∈ [(-3, 16%nat); (-4, 24%nat); (-5, 32%nat)] ->
     (key <> [] -> length key <> size ->
      AESKeyWrap.__init__ protected unprotected ciphertext recipients key_ops key
      = Raise (ValueError ("Invalid key length: " +:+ pretty (length key) +:+ ".")))
     /\
     (key = [] \/ length key = size ->
      exists self,
        AESKeyWrap.__init__ protected unprotected ciphertext recipients key_ops key
        = Return self /\
        _alg self = a /\ _key self = key /\ _ciphertext self = ciphertext /\
        _protected self = protected /\ _unprotected self = unprotected /\
        _recipients self = recipients /\ _key_ops self = key_ops)).
Proof.
  intros Halg.
  destruct (base_init_Return protected unprotected ciphertext recipients
              key_ops key a Halg) as (self & Hbase & Ha & Hk & Hrest).
  split.
  - intros Hout. unfold AESKeyWrap.__init__. rewrite Hbase.
    change (Return self ≫= ?f) with (f self). cbv beta. rewrite Ha.
    rewrite recognized_alg in Hout.
    destruct (Z.eqb_spec a (-3)); [tauto|].
    destruct (Z.eqb_spec a (-4)); [tauto|].
    destruct (Z.eqb_spec a (-5)); [tauto|]. reflexivity.
  - intros size Hsize.
    rewrite (init_recognized _ _ _ _ _ _ a size self Hsize Hbase Ha).
    rewrite check_key_length_spec, Hk. split.
    + intros Hne Hlen. rewrite decide_False; [reflexivity|tauto].
    + intros Hok. rewrite decide_True by exact Hok.
      exists self. auto 10.
Qed.

Lemma init_validates_alg_and_key_length_witness :
  AESKeyWrap.__init__ {[ 1 := CInt (-7) ]} ∅ [] [] [] [x00]
  = Raise (ValueError "Unknown alg(3) for AES key wrap: -7.") /\
  AESKeyWrap.__init__ {[ 1 := CInt (-5) ]} ∅ [] [] [] rfc3394_kek
  = Raise (ValueError "Invalid key length: 16.").
Proof.
  split.
  - apply (init_validates_alg_and_key_length
             {[ 1 := CInt (-7) ]} ∅ [] [] [] [x00] (-7)).
    + reflexivity.
    + rewrite recognized_alg. lia.
  - apply (init_validates_alg_and_key_length
             {[ 1 := CInt (-5) ]} ∅ [] [] [] rfc3394_kek (-5)) with (size := 32%nat).
    + reflexivity.
    + apply recognized_alg_size. auto.
    + discriminate.
    + vm_compute. lia.
Defined.

(** C2 as stated fails: the empty shared secret has length 0, which differs
    from the 16 bytes required for algorithm id -3, and construction
    succeeds all the same. *)
Lemma init_accepts_empty_key_of_wrong_length :
  length ([] : bytes) <> 16%nat /\
  AESKeyWrap.__init__ {[ 1 := CInt (-3) ]} ∅ [] [] [] []
  <> Raise (ValueError "Invalid key length: 0.") /\
  exists self, AESKeyWrap.__init__ {[ 1 := CInt (-3) ]} ∅ [] [] [] [] = Return self.
Proof.
  split; [discriminate|]. split; [discriminate|].
  eexists. reflexivity.
Qed.


Lemma encode_key_Return self k rk a ctx wrapped :
  aes_key_wrap (_key self) (key k) = Return wrapped ->
  AESKeyWrap.encode_key (Some k) rk a ctx self
  = (Return k,
     {| _protected := _protected self; _unprotected := _unprotected self;
        _ciphertext := wrapped; _recipients := _recipients self;
        _key_ops := _key_ops self; _key := _key self; _alg := _alg self;
        _kid := _kid self |},
     [Call "aes_key_wrap"; SetAttr attr_ciphertext]).
Proof. intros Hwrap. run_method. rewrite Hwrap. reflexivity. Qed.

Lemma encode_key_Raise self k rk a ctx e :
  aes_key_wrap (_key self) (key k) = Raise e ->
  AESKeyWrap.encode_key (Some k) rk a ctx self
  = (Raise (EncodeError "Failed to wrap key." (Some e)), self,
     [Call "aes_key_wrap"]).
Proof. intros Hwrap. run_method. rewrite Hwrap. reflexivity. Qed.

Lemma decode_key_Return `{COSEKeyAPI} self sk a ctx pt k' :
  a <> 0 ->
  aes_key_unwrap (key sk) (_ciphertext self) = Return pt ->
  from_symmetric_key pt a (_kid self) = Return k' ->
  AESKeyWrap.decode_key sk (Some a) ctx self
  = (Return k', self, [Call "aes_key_unwrap"; Call "from_symmetric_key"]).
Proof.
  intros Ha Hunwrap Hbuild. run_method.
  destruct a as [|p|p]; [congruence| |]; rewrite Hunwrap, Hbuild; reflexivity.
Qed.

Lemma decode_key_unwrap_Raise `{COSEKeyAPI} self sk a ctx e :
  a <> 0 ->
  aes_key_unwrap (key sk) (_ciphertext self) = Raise e ->
  AESKeyWrap.decode_key sk (Some a) ctx self
  = (Raise (DecodeError "Failed to decode key." (Some e)), self,
     [Call "aes_key_unwrap"]).
Proof.
  intros Ha Hunwrap. run_method.
  destruct a as [|p|p]; [congruence| |]; rewrite Hunwrap; reflexivity.
Qed.

Lemma decode_key_build_Raise `{COSEKeyAPI} self sk a ctx pt e :
  a <> 0 ->
  aes_key_unwrap (key sk) (_ciphertext self) = Return pt ->
  from_symmetric_key pt a (_kid self) = Raise e ->
  AESKeyWrap.decode_key sk (Some a) ctx self
  = (Raise (DecodeError "Failed to decode key." (Some e)), self,
     [Call "aes_key_unwrap"; Call "from_symmetric_key"]).
Proof.
  intros Ha Hunwrap Hbuild. run_method.
  destruct a as [|p|p]; [congruence| |]; rewrite Hunwrap, Hbuild; reflexivity.
Qed.

Lemma decode_key_no_alg `{COSEKeyAPI} self sk a ctx :
  a = None \/ a = Some 0 ->
  AESKeyWrap.decode_key sk a ctx self
  = (Raise (ValueError "alg should be set."), self, []).
Proof. intros [-> | ->]; reflexivity. Qed.

(** C5, as the code has it.  For every AESKeyWrap recipient and every
    non-null input key on which the key-wrap primitive succeeds under the
    stored shared secret, [encode_key] returns the input key itself, and the
    call assigns one attribute of the recipient, once: [_ciphertext], set to
    the wrapped key bytes.  Every other attribute is as before. *)
Theorem encode_key_sets_ciphertext_only self k rk a ctx wrapped :
  aes_key_wrap (_key self) (key k) = Return wrapped ->
  exists self',
    AESKeyWrap.encode_key (Some k) rk a ctx self
    = (Return k, self', [Call "aes_key_wrap"; SetAttr attr_ciphertext]) /\
    _ciphertext self' = wrapped /\
    _protected self' = _protected self /\
    _unprotected self' = _unprotected self /\
    _recipients self' = _recipients self /\
    _key_ops self' = _key_ops self /\
    _key self' = _key self /\ _alg self' = _alg self /\ _kid self' = _kid self.
Proof.
  intros Hwrap. eexists. split; [apply encode_key_Return, Hwrap|].
  simpl. auto 10.
Qed.

Lemma encode_key_sets_ciphertext_only_witness :
  exists self',
    AESKeyWrap.encode_key (Some cek) None None None sender
    = (Return cek, self', [Call "aes_key_wrap"; SetAttr attr_ciphertext]) /\
    _ciphertext self' = rfc3394_wrapped /\
    _protected self' = _protected sender /\
    _unprotected self' = _unprotected sender /\
    _recipients self' = _recipients sender /\
    _key_ops self' = _key_ops sender /\
    _key self' = _key sender /\ _alg self' = _alg sender /\
    _kid self' = _kid sender.
Proof.
  apply (encode_key_sets_ciphertext_only sender cek None None None rfc3394_wrapped).
  vm_compute. reflexivity.
Defined.

(** C5 as stated fails: a recipient constructed without a shared secret
    (the default) does not return the input key; the primitive rejects the
    empty wrapping key, the call raises [EncodeError] and the ciphertext is
    not assigned. *)
Lemma encode_key_fails_without_secret :
  AESKeyWrap.encode_key (Some cek) None None None receiver
  = (Raise (EncodeError "Failed to wrap key."
              (Some (ValueError "The wrapping key must be a valid AES key length"))),
     receiver, [Call "aes_key_wrap"]) /\
  ~ (exists self' trace,
        AESKeyWrap.encode_key (Some cek) None None None receiver
        = (Return cek, self', trace)).
Proof.
  assert (AESKeyWrap.encode_key (Some cek) None None None receiver
          = (Raise (EncodeError "Failed to wrap key."
              (Some (ValueError "The wrapping key must be a valid AES key length"))),
             receiver, [Call "aes_key_wrap"])) as Hrun
    by (apply encode_key_Raise; reflexivity).
  split; [exact Hrun|].
  intros (self' & trace & Hret). rewrite Hrun in Hret. discriminate.
Qed.

(** C6. Whenever the key-wrap primitive fails inside [encode_key], the call
    raises [EncodeError] "Failed to wrap key." with the failure as its cause,
    the recipient is left as it was and nothing is assigned; with a null
    key the call raises [ValueError] "key should be set." and the primitive
    is not called. *)
Theorem encode_key_failures self rk a ctx :
  (forall k e,
      aes_key_wrap (_key self) (key k) = Raise e ->
      AESKeyWrap.encode_key (Some k) rk a ctx self
      = (Raise (EncodeError "Failed to wrap key." (Some e)), self,
         [Call "aes_key_wrap"])) /\
  AESKeyWrap.encode_key None rk a ctx self
  = (Raise (ValueError "key should be set."), self, []).
Proof.
  split; [|reflexivity]. intros k e. apply encode_key_Raise.
Qed.

Lemma encode_key_failures_witness :
  AESKeyWrap.encode_key (Some (symmetric 1 None [x2a])) None None None sender
  = (Raise (EncodeError "Failed to wrap key."
              (Some (ValueError "The key to wrap must be at least 16 bytes"))),
     sender, [Call "aes_key_wrap"]) /\
  AESKeyWrap.encode_key None None None None sender
  = (Raise (ValueError "key should be set."), sender, []).
Proof.
  split.
  - apply (encode_key_failures sender None None None). reflexivity.
  - apply (encode_key_failures sender None None None).
Defined.

(** C7, as the code has it.  [decode_key] raises [ValueError] "alg should be
    set." if and only if the alg argument is absent or is 0; with any other
    alg, a failure of the unwrap primitive and a failure of the key
    construction that follows it are each re-raised as [DecodeError]
    "Failed to decode key." with the failure as its cause. *)
Theorem decode_key_failures `{COSEKeyAPI} self sk a ctx :
  ((AESKeyWrap.decode_key sk a ctx self).1.1
   = Raise (ValueError "alg should be set.") <-> a = None \/ a = Some 0) /\
  (forall a' e,
      a = Some a' -> a' <> 0 ->
      aes_key_unwrap (key sk) (_ciphertext self) = Raise e ->
      AESKeyWrap.decode_key sk a ctx self
      = (Raise (DecodeError "Failed to decode key." (Some e)), self,
         [Call "aes_key_unwrap"])) /\
  (forall a' pt e,
      a = Some a' -> a' <> 0 ->
      aes_key_unwrap (key sk) (_ciphertext self) = Return pt ->
      from_symmetric_key pt a' (_kid self) = Raise e ->
      AESKeyWrap.decode_key sk a ctx self
      = (Raise (DecodeError "Failed to decode key." (Some e)), self,
         [Call "aes_key_unwrap"; Call "from_symmetric_key"])).
Proof.
  split; [|split].
  - split.
    + intros Hraise. destruct a as [a'|]; [|auto].
      destruct (Z.eq_dec a' 0) as [->|Hne]; [auto|]. exfalso.
      destruct (aes_key_unwrap (key sk) (_ciphertext self)) as [pt|e] eqn:Hunwrap.
      * destruct (from_symmetric_key pt a' (_kid self)) as [k'|e] eqn:Hbuild.
        -- rewrite (decode_key_Return self sk a' ctx pt k') in Hraise by assumption.
           discriminate.
        -- rewrite (decode_key_build_Raise self sk a' ctx pt e) in Hraise
             by assumption.
           discriminate.
      * rewrite (decode_key_unwrap_Raise self sk a' ctx e) in Hraise by assumption.
        discriminate.
    + intros Ha. now rewrite decode_key_no_alg.
  - intros a' e -> Ha Hunwrap. now apply decode_key_unwrap_Raise.
  - intros a' pt e -> Ha Hunwrap Hbuild. now apply decode_key_build_Raise with pt.
Qed.

Lemma decode_key_failures_witness :
  @AESKeyWrap.decode_key (plain_keys (Return [])) (symmetric (-3) None (repeat x00 16))
    (Some 1) None receiver
  = (Raise (DecodeError "Failed to decode key." (Some (InvalidUnwrap ""))),
     receiver, [Call "aes_key_unwrap"]) /\
  @AESKeyWrap.decode_key no_keys kek (Some 1) None receiver
  = (Raise (DecodeError "Failed to decode key."
              (Some (ValueError "Unsupported or unknown alg(3)."))),
     receiver, [Call "aes_key_unwrap"; Call "from_symmetric_key"]).
Proof.
  split.
  - apply (@decode_key_failures (plain_keys (Return [])) receiver
             (symmetric (-3) None (repeat x00 16)) (Some 1) None) with (a' := 1).
    + reflexivity.
    + lia.
    + vm_compute. reflexivity.
  - apply (@decode_key_failures no_keys receiver kek (Some 1) None)
      with (a' := 1) (pt := rfc3394_key_data).
    + reflexivity.
    + lia.
    + vm_compute. reflexivity.
    + reflexivity.
Defined.

(** C7 as stated fails: with the alg argument present and equal to 0 the
    call raises [ValueError] "alg should be set." all the same. *)
Lemma decode_key_rejects_alg_zero :
  (Some 0 : option Z) <> None /\
  @AESKeyWrap.decode_key (plain_keys (Return [])) kek (Some 0) None receiver
  = (Raise (ValueError "alg should be set."), receiver, []).
Proof. split; [discriminate|reflexivity]. Qed.

(** C3, as the code has it.  For every AESKeyWrap recipient and every
    non-null, non-zero alg, [decode_key(key, alg)] unwraps the stored
    ciphertext under the raw bytes of the key argument (the shared secret
    stored in the recipient is not read); when the unwrap and the key
    construction succeed it returns the key the factory built from the
    unwrapped bytes, whose algorithm id is the supplied alg and whose key id
    is the key id of the recipient structure.  The recipient is unchanged. *)
Theorem decode_key_unwraps_under_key_argument `{COSEKeyAPI} self sk a ctx pt k' :
  builds_symmetric_keys ->
  a <> 0 ->
  aes_key_unwrap (key sk) (_ciphertext self) = Return pt ->
  from_symmetric_key pt a (_kid self) = Return k' ->
  AESKeyWrap.decode_key sk (Some a) ctx self
  = (Return k', self, [Call "aes_key_unwrap"; Call "from_symmetric_key"]) /\
  key k' = pt /\ alg k' = a /\ kid k' = _kid self.
Proof.
  intros Hcontract Ha Hunwrap Hbuild.
  split; [now apply decode_key_Return with pt|].
  exact (Hcontract pt a (_kid self) k' Hbuild).
Qed.

Lemma plain_keys_contract nonce : @builds_symmetric_keys (plain_keys nonce).
Proof. intros b a i k Hk. injection Hk as <-. auto. Qed.

Lemma decode_key_unwraps_under_key_argument_witness :
  @AESKeyWrap.decode_key (plain_keys (Return [])) kek (Some 1) None receiver
  = (Return (symmetric 1 (Some [x30; x31]) rfc3394_key_data), receiver,
     [Call "aes_key_unwrap"; Call "from_symmetric_key"]) /\
  key (symmetric 1 (Some [x30; x31]) rfc3394_key_data) = rfc3394_key_data /\
  alg (symmetric 1 (Some [x30; x31]) rfc3394_key_data) = 1 /\
  kid (symmetric 1 (Some [x30; x31]) rfc3394_key_data) = _kid receiver.
Proof.
  apply (@decode_key_unwraps_under_key_argument (plain_keys (Return []))
           receiver kek 1 None rfc3394_key_data).
  - apply plain_keys_contract.
  - lia.
  - vm_compute. reflexivity.
  - reflexivity.
Defined.

(** C3 as stated fails: the recipient below stores no shared secret, so
    unwrapping its ciphertext under the stored secret fails; [decode_key]
    nevertheless returns the transported key, because it unwraps under the
    bytes of the key argument.  With alg 0, which is not null, it raises
    instead of returning a key. *)
Lemma decode_key_does_not_use_stored_secret :
  aes_key_unwrap (_key receiver) (_ciphertext receiver)
  = Raise (ValueError "The wrapping key must be a valid AES key length") /\
  @AESKeyWrap.decode_key (plain_keys (Return [])) kek (Some 1) None receiver
  = (Return (symmetric 1 (Some [x30; x31]) rfc3394_key_data), receiver,
     [Call "aes_key_unwrap"; Call "from_symmetric_key"]) /\
  @AESKeyWrap.decode_key (plain_keys (Return [])) kek (Some 0) None receiver
  = (Raise (ValueError "alg should be set."), receiver, []).
Proof.
  split; [reflexivity|]. split; [|reflexivity].
  apply (@decode_key_Return (plain_keys (Return [])) receiver kek 1 None
           rfc3394_key_data); [lia|vm_compute; reflexivity|reflexivity].
Qed.

(** C1, as the code has it.  For every AESKeyWrap recipient constructed
    with algorithm id -3, -4 or -5 and a shared secret of the matching
    length (16, 24 or 32 bytes), every input key whose raw bytes are a valid
    wrap input (at least 16 bytes, a multiple of 8, within the size of a
    bytes object) and every non-zero algorithm id for which the key factory
    builds a key: [encode_key(k)] followed by [decode_key] with the shared
    secret as the key argument returns a key whose raw bytes are those of
    [k]. *)
Theorem decode_key_encode_key `{COSEKeyAPI}
    protected unprotected ciphertext recipients key_ops secret self
    k rk a0 ctx0 sk a ctx k' :
  builds_symmetric_keys ->
  AESKeyWrap.__init__ protected unprotected ciphertext recipients key_ops secret
  = Return self ->
  (_alg self, length secret) ∈ [(-3, 16%nat); (-4, 24%nat); (-5, 32%nat)] ->
  (16 <= length (key k))%nat -> (length (key k) mod 8 = 0)%nat ->
  (N.of_nat (length (key k)) < 2 ^ 63)%N ->
  key sk = secret ->
  a <> 0 ->
  from_symmetric_key (key k) a (_kid self) = Return k' ->
  exists self',
    AESKeyWrap.encode_key (Some k) rk a0 ctx0 self
    = (Return k, self', [Call "aes_key_wrap"; SetAttr attr_ciphertext]) /\
    AESKeyWrap.decode_key sk (Some a) ctx self'
    = (Return k', self', [Call "aes_key_unwrap"; Call "from_symmetric_key"]) /\
    key k' = key k.
Proof.
  intros Hcontract Hinit Halg Hmin Hmod Hmax Hsk Ha Hbuild.
  assert (_key self = secret) as Hkey.
  { unfold AESKeyWrap.__init__, RecipientInterface.__init__ in Hinit.
    destruct (protected !! 1) as [[a1| | | | | | |]|]; try discriminate.
    change (Return ?s ≫= ?f) with (f s) in Hinit. cbv beta in Hinit.
    unfold AESKeyWrap.check_key_length in Hinit.
    repeat match type of Hinit with
           | (if ?c then _ else _) = _ => destruct c
           end; try discriminate; injection Hinit as <-; reflexivity. }
  assert (length secret ∈ [16; 24; 32]%nat) as Hlen.
  { apply recognized_alg_size in Halg. rewrite !elem_of_cons.
    destruct Halg as [[_ ->] | [[_ ->] | [_ ->]]]; auto. }
  destruct (aes_key_unwrap_wrap secret (key k) Hlen Hmin Hmod Hmax)
    as (wrapped & Hwrap & Hunwrap).
  eexists. split; [apply encode_key_Return; rewrite Hkey; exact Hwrap|].
  split.
  - apply decode_key_Return with (key k); [exact Ha| |exact Hbuild].
    rewrite Hsk. exact Hunwrap.
  - exact (proj1 (Hcontract _ _ _ _ Hbuild)).
Qed.

Lemma decode_key_encode_key_witness :
  exists self',
    AESKeyWrap.encode_key (Some cek) None None None sender
    = (Return cek, self', [Call "aes_key_wrap"; SetAttr attr_ciphertext]) /\
    @AESKeyWrap.decode_key (plain_keys (Return [])) kek (Some 1) None self'
    = (Return (symmetric 1 (Some [x30; x31]) rfc3394_key_data), self',
       [Call "aes_key_unwrap"; Call "from_symmetric_key"]) /\
    key (symmetric 1 (Some [x30; x31]) rfc3394_key_data) = key cek.
Proof.
  apply (@decode_key_encode_key (plain_keys (Return []))
           {[ 1 := CInt (-3) ]} {[ 4 := CBytes [x30; x31] ]} [] [] []
           rfc3394_kek sender cek None None None kek 1 None).
  - apply plain_keys_contract.
  - reflexivity.
  - apply recognized_alg_size. auto.
  - simpl. lia.
  - reflexivity.
  - vm_compute. reflexivity.
  - reflexivity.
  - lia.
  - reflexivity.
Defined.

(** C1 as stated fails for the algorithm id 0: after a successful
    [encode_key], [decode_key] with the shared secret and alg 0 raises
    [ValueError] and returns no key. *)
Lemma decode_key_encode_key_fails_for_alg_zero :
  AESKeyWrap.__init__ {[ 1 := CInt (-3) ]} {[ 4 := CBytes [x30; x31] ]} [] [] []
    rfc3394_kek = Return sender /\
  AESKeyWrap.encode_key (Some cek) None None None sender
  = (Return cek, sender_after, [Call "aes_key_wrap"; SetAttr attr_ciphertext]) /\
  @AESKeyWrap.decode_key (plain_keys (Return [])) kek (Some 0) None sender_after
  = (Raise (ValueError "alg should be set."), sender_after, []).
Proof.
  split; [reflexivity|]. split; [|reflexivity].
  apply encode_key_Return. vm_compute. reflexivity.
Qed.

End AESKeyWrapClaims.

(** * Claims about the encrypted COSE key envelope *)

Section EncryptedCOSEKeyClaims.
Import Fixtures ResultFacts.
Context {keys : COSEKeyAPI} {engine : COSEEngine} {codec : CBORProcessor}
  {builder : KeyBuilder}.

Lemma bind_Raise {A B : Type} (e : exception) (f : A -> result B) :
  Raise e ≫= f = Raise e.
Proof. reflexivity. Qed.

Lemma bind_Return_inv {A B : Type} (m : result A) (f : A -> result B) (b : B) :
  m ≫= f = Return b -> exists a, m = Return a /\ f a = Return b.
Proof. destruct m as [a|e]; [eauto|discriminate]. Qed.

Lemma tag_not_its_value : forall (v : cbor) (t : Z), CTag t v <> v.
Proof.
  fix IH 1. intros v t Heq. destruct v; try discriminate.
  injection Heq as _ Heq. exact (IH _ _ Heq).
Qed.

(** What a successful [encode] did: the nonce it used, the payload it
    serialized and the engine call that produced its result. *)
Lemma encode_Return_inv k ek nonce tagged v :
  EncryptedCOSEKey.encode k ek nonce tagged = Return v ->
  exists n d payload res,
    (nonce <> [] /\ n = nonce \/ nonce = [] /\ generate_nonce ek = Return n) /\
    to_dict k = Return d /\ _dumps d = Return payload /\
    cose_encode_and_encrypt payload ek {[ 1 := CInt (alg ek) ]}
      (<[ 5 := CBytes n ]>
         match kid ek with
         | Some (b :: bs) => {[ 4 := CBytes (b :: bs) ]}
         | _ => ∅
         end)
      n "cbor2/CBORTag" = Return res /\
    v = value res.
Proof.
  unfold EncryptedCOSEKey.encode. intros Hrun.
  apply bind_Return_inv in Hrun as (n & Hnonce & Hrun).
  apply bind_Return_inv in Hrun as (d & Hdict & Hrun).
  apply bind_Return_inv in Hrun as (payload & Hdumps & Hrun).
  apply bind_Return_inv in Hrun as (res & Hengine & Hrun).
  injection Hrun as <-.
  exists n, d, payload, res. repeat split; try assumption.
  destruct nonce as [|b bs]; simpl truthy in Hnonce; cbv iota in Hnonce.
  - right. split; [reflexivity|].
    destruct (generate_nonce ek) as [n'|[]]; congruence.
  - left. split; [discriminate|congruence].
Qed.

(** C8. In [encode], an empty nonce is replaced by one requested from the
    encryption key; when the key answers [NotImplementedError] the call
    raises [ValueError] with the message below; and in every successful call
    the engine is given the nonce in use (the supplied one, or the generated
    one when the supplied one is empty), an unprotected header that maps
    label 5 to that nonce, and the protected header {1: the encryption
    key's algorithm id}. *)
Theorem encode_nonce_and_headers k ek nonce tagged :
  (forall msg,
      nonce = [] -> generate_nonce ek = Raise (NotImplementedError msg) ->
      EncryptedCOSEKey.encode k ek nonce tagged
      = Raise (ValueError
          "Nonce generation is not supported for the key. Set a nonce explicitly."))
  /\
  (forall v,
      EncryptedCOSEKey.encode k ek nonce tagged = Return v ->
      exists n payload unprotected res,
        (nonce <> [] /\ n = nonce \/ nonce = [] /\ generate_nonce ek = Return n) /\
        unprotected !! 5 = Some (CBytes n) /\
        cose_encode_and_encrypt payload ek {[ 1 := CInt (alg ek) ]} unprotected
          n "cbor2/CBORTag" = Return res /\
        v = value res).
Proof.
  split.
  - intros msg -> Hgen. unfold EncryptedCOSEKey.encode.
    simpl truthy. cbv iota. rewrite Hgen. reflexivity.
  - intros v Hrun.
    destruct (encode_Return_inv _ _ _ _ _ Hrun)
      as (n & d & payload & res & Hn & _ & _ & Hengine & Hv).
    exists n, payload. eexists. exists res.
    split; [exact Hn|]. split; [|split; [exact Hengine|exact Hv]].
    apply lookup_insert_eq.
Qed.


(** C9. [decode] hands the envelope, wrapped in tag 16, to the engine
    together with the encryption key, deserializes the plaintext the engine
    returns and builds the key from the resulting attribute mapping; it
    returns a key exactly when these three steps succeed in turn, and
    whatever any of them raises (the engine's [DecodeError] or
    [VerifyError] included) is raised by [decode] as it is. *)
Theorem decode_delegates envelope ek :
  (forall k,
      EncryptedCOSEKey.decode envelope ek = Return k <->
      exists plaintext attrs,
        cose_decode (CTag 16 envelope) ek = Return plaintext /\
        _loads plaintext = Return attrs /\ from_dict attrs = Return k) /\
  (forall e,
      EncryptedCOSEKey.decode envelope ek = Raise e <->
      cose_decode (CTag 16 envelope) ek = Raise e \/
      exists plaintext,
        cose_decode (CTag 16 envelope) ek = Return plaintext /\
        (_loads plaintext = Raise e \/
         exists attrs,
           _loads plaintext = Return attrs /\ from_dict attrs = Raise e)).
Proof.
  unfold EncryptedCOSEKey.decode.
  destruct (cose_decode (CTag 16 envelope) ek) as [plaintext|e1].
  - rewrite bind_Return. destruct (_loads plaintext) as [attrs|e2] eqn:Hloads.
    + rewrite bind_Return. split.
      * intros k. split; [intros Hk; exists plaintext, attrs; auto|].
        intros (p & m & Hp & Hm & Hk). injection Hp as <-.
        rewrite Hloads in Hm. injection Hm as <-. exact Hk.
      * intros e. split.
        { intros He. right. exists plaintext. split; [reflexivity|].
          right. exists attrs. auto. }
        intros [Hp|(p & Hp & [Hm|(m & Hm & He)])]; try discriminate;
          injection Hp as <-; rewrite Hloads in Hm; [discriminate|].
        injection Hm as <-. exact He.
    + rewrite bind_Raise. split.
      * intros k. split; [discriminate|].
        intros (p & m & Hp & Hm & _). injection Hp as <-.
        rewrite Hloads in Hm. discriminate.
      * intros e. split.
        -- intros He. injection He as <-. right. exists plaintext. auto.
        -- intros [Hp|(p & Hp & [Hm|(m & Hm & _)])]; try discriminate;
             injection Hp as <-; rewrite Hloads in Hm; [|discriminate].
           now injection Hm as <-.
  - rewrite bind_Raise. split.
    + intros k. split; [discriminate|]. intros (p & m & Hp & _). discriminate.
    + intros e. split.
      * intros He. injection He as <-. auto.
      * intros [Hp|(p & Hp & _)]; [now injection Hp as <-|discriminate].
Qed.

(** C4, where the code departs from it.  [encode] answers the same for
    [tagged = True] and for [tagged = False]: in both cases the [value] of
    the tagged envelope the engine returned, which is never the tagged
    envelope itself. *)
Theorem encode_ignores_tagged k ek nonce :
  EncryptedCOSEKey.encode k ek nonce true
  = EncryptedCOSEKey.encode k ek nonce false /\
  (forall v,
      EncryptedCOSEKey.encode k ek nonce true = Return v ->
      exists n payload unprotected res,
        cose_encode_and_encrypt payload ek {[ 1 := CInt (alg ek) ]} unprotected
          n "cbor2/CBORTag" = Return res /\
        v = value res /\ v <> CTag (tag res) (value res)).
Proof.
  split; [reflexivity|]. intros v Hrun.
  destruct (encode_Return_inv _ _ _ _ _ Hrun)
    as (n & d & payload & res & _ & _ & _ & Hengine & ->).
  exists n, payload. eexists. exists res.
  split; [exact Hengine|]. split; [reflexivity|].
  intros Heq. exact (tag_not_its_value _ _ (eq_sym Heq)).
Qed.

End EncryptedCOSEKeyClaims.

Section EncryptedCOSEKeyRuns.
Import Fixtures.

Lemma encode_nonce_and_headers_witness :
  @EncryptedCOSEKey.encode (plain_keys (Raise (NotImplementedError "")))
    clear_engine key_bytes_codec cek kek [] false
  = Raise (ValueError
      "Nonce generation is not supported for the key. Set a nonce explicitly.")
  /\
  exists n payload unprotected res,
    ([] <> ([] : bytes) /\ n = [] \/
     [] = ([] : bytes) /\
     @generate_nonce (plain_keys (Return [x01; x02])) kek = Return n) /\
    unprotected !! 5 = Some (CBytes n) /\
    @cose_encode_and_encrypt clear_engine payload kek {[ 1 := CInt (alg kek) ]}
      unprotected n "cbor2/CBORTag" = Return res /\
    CArray [CMap [(CInt 1, CInt (-3))];
            CMap [(CInt 5, CBytes [x01; x02]); (CInt 4, CBytes [x30; x31])];
            CBytes rfc3394_key_data] = value res.
Proof.
  split.
  - apply (@encode_nonce_and_headers (plain_keys (Raise (NotImplementedError "")))
             clear_engine key_bytes_codec cek kek [] false) with (msg := "");
      reflexivity.
  - apply (@encode_nonce_and_headers (plain_keys (Return [x01; x02]))
             clear_engine key_bytes_codec cek kek [] false).
    vm_compute. reflexivity.
Defined.

Lemma decode_delegates_witness :
  @EncryptedCOSEKey.decode clear_engine key_bytes_codec key_bytes_builder
    (CArray [CNull; CNull; CBytes rfc3394_key_data]) kek
  = Return (symmetric 1 None rfc3394_key_data) /\
  @EncryptedCOSEKey.decode failing_engine key_bytes_codec key_bytes_builder
    (CArray [CNull; CNull; CBytes rfc3394_key_data]) kek
  = Raise (VerifyError "Failed to verify." None).
Proof.
  split.
  - apply (@decode_delegates clear_engine key_bytes_codec key_bytes_builder).
    exists rfc3394_key_data, (CMap [(CInt (-1), CBytes rfc3394_key_data)]).
    repeat split; reflexivity.
  - apply (@decode_delegates failing_engine key_bytes_codec key_bytes_builder).
    left. reflexivity.
Defined.

Lemma encode_ignores_tagged_witness :
  exists n payload unprotected res,
    @cose_encode_and_encrypt clear_engine payload kek {[ 1 := CInt (alg kek) ]}
      unprotected n "cbor2/CBORTag" = Return res /\
    CArray [CMap [(CInt 1, CInt (-3))];
            CMap [(CInt 5, CBytes [x01; x02]); (CInt 4, CBytes [x30; x31])];
            CBytes rfc3394_key_data] = value res /\
    CArray [CMap [(CInt 1, CInt (-3))];
            CMap [(CInt 5, CBytes [x01; x02]); (CInt 4, CBytes [x30; x31])];
            CBytes rfc3394_key_data] <> CTag (tag res) (value res).
Proof.
  apply (@encode_ignores_tagged (plain_keys (Return [x01; x02])) clear_engine
           key_bytes_codec cek kek []).
  vm_compute. reflexivity.
Defined.

End EncryptedCOSEKeyRuns.

(** * Further properties of the AES key wrap recipient *)

(** ** Lengths through [aes_key_wrap] and [aes_key_unwrap] *)

Module KeyWrapLengths.
Import keywrap ResultFacts KeyWrapFacts.

Lemma foldM_invariant {S X : Type} (f : S -> X -> result S)
    (I : S -> Prop) (P : X -> Prop) :
  (forall s x s', I s -> P x -> f s x = Return s' -> I s') ->
  forall xs s s', Forall P xs -> I s -> foldM f xs s = Return s' -> I s'.
Proof.
  intros Hstep xs. induction xs as [|x xs IH]; intros s s' HP HI Hrun.
  - injection Hrun as <-. exact HI.
  - inversion HP as [|? ? Hx Hxs]; subst. simpl in Hrun.
    destruct (f s x) as [s1|e] eqn:Hf; [|discriminate].
    rewrite bind_Return in Hrun.
    exact (IH s1 s' Hxs (Hstep s x s1 HI Hx Hf) Hrun).
Qed.

Lemma length_ecb_decrypt key data :
  length data = 16%nat -> length (AES.ecb_decrypt key data) = 16%nat.
Proof.
  intros Hlen. unfold AES.ecb_decrypt.
  destruct (AESFacts.ecb_block (AES.inv_cipher (AES.key_expansion key)) data Hlen)
    as (s & _ & ->).
  apply AESFacts.length_bytes_of_state.
Qed.

Lemma to_bytes_8_Return v a :
  to_bytes v 8 = Return a -> length a = 8%nat.
Proof.
  unfold to_bytes. destruct (v <? 256 ^ N.of_nat 8)%N; [|discriminate].
  intros Heq. injection Heq as <-. reflexivity.
Qed.

Lemma semiblocks_lookup n a r i :
  semiblocks n (a, r) -> (i < n)%nat ->
  exists ri, r !! i = Some ri /\ length ri = 8%nat.
Proof.
  intros (_ & Hr & Hall) Hi. simpl in Hr, Hall.
  destruct (lookup_lt_is_Some_2 r i) as [ri Hri]; [lia|].
  exists ri. split; [exact Hri|].
  exact (Forall_lookup_1 (fun x : bytes => length x = 8%nat) r i ri Hall Hri).
Qed.

Lemma semiblocks_insert n a a' r i x :
  semiblocks n (a, r) -> length a' = 8%nat -> length x = 8%nat ->
  semiblocks n (a', <[i := x]> r).
Proof.
  intros (_ & Hr & Hall) Ha' Hx. simpl in Hr, Hall.
  split; [exact Ha'|]. simpl. split; [now rewrite length_insert|].
  now apply Forall_insert.
Qed.

Lemma wrap_step_semiblocks kek n j st i st' :
  semiblocks n st -> (i < n)%nat ->
  wrap_step kek n j st i = Return st' -> semiblocks n st'.
Proof.
  destruct st as [a r]. intros Hst Hi Hrun.
  destruct (semiblocks_lookup n a r i Hst Hi) as (ri & Hri & Hlri).
  pose proof Hst as (Ha & _). simpl in Ha.
  unfold wrap_step in Hrun. cbv beta iota zeta in Hrun. rewrite Hri in Hrun.
  change (default [] (Some ri)) with ri in Hrun.
  assert (length (AES.ecb_encrypt kek (a ++ ri)) = 16%nat) as Hb
    by (apply AESFacts.length_ecb_encrypt; rewrite length_app; lia).
  apply bind_Return_inv in Hrun as (a' & Ha' & Hret).
  injection Hret as <-.
  apply (semiblocks_insert n a); [exact Hst|exact (to_bytes_8_Return _ _ Ha')|].
  rewrite length_drop. lia.
Qed.

Lemma unwrap_step_semiblocks kek n j st i st' :
  semiblocks n st -> (i < n)%nat ->
  unwrap_step kek n j st i = Return st' -> semiblocks n st'.
Proof.
  destruct st as [a r]. intros Hst Hi Hrun.
  destruct (semiblocks_lookup n a r i Hst Hi) as (ri & Hri & Hlri).
  unfold unwrap_step in Hrun. cbv beta iota zeta in Hrun.
  apply bind_Return_inv in Hrun as (a' & Ha' & Hret).
  rewrite Hri in Hret. change (default [] (Some ri)) with ri in Hret.
  assert (length (AES.ecb_decrypt kek (a' ++ ri)) = 16%nat) as Hb.
  { apply length_ecb_decrypt. rewrite length_app, (to_bytes_8_Return _ _ Ha'). lia. }
  injection Hret as <-.
  apply (semiblocks_insert n a); [exact Hst| |].
  - rewrite length_take. lia.
  - rewrite length_drop. lia.
Qed.

Lemma in_range_Forall n : Forall (fun i => (i < n)%nat) (seq 0 n).
Proof. apply Forall_forall. intros i Hin. apply elem_of_seq in Hin. lia. Qed.

Lemma in_range_Forall_rev n : Forall (fun i => (i < n)%nat) (rev (seq 0 n)).
Proof. apply List.Forall_rev, in_range_Forall. Qed.

Lemma wrap_loops_semiblocks kek n st st' :
  semiblocks n st ->
  foldM (fun st j => foldM (wrap_step kek n j) (seq 0 n) st) (seq 0 6) st
  = Return st' ->
  semiblocks n st'.
Proof.
  intros Hst.
  apply (foldM_invariant _ (semiblocks n) (fun _ => True));
    [|apply Forall_forall; auto|exact Hst].
  intros s j s' Hs _.
  apply (foldM_invariant _ (semiblocks n) (fun i => (i < n)%nat));
    [|apply in_range_Forall|exact Hs].
  intros s0 i s0' Hs0 Hi. now apply wrap_step_semiblocks.
Qed.

Lemma unwrap_loops_semiblocks kek n st st' :
  semiblocks n st ->
  foldM (fun st j => foldM (unwrap_step kek n j) (rev (seq 0 n)) st)
    (rev (seq 0 6)) st = Return st' ->
  semiblocks n st'.
Proof.
  intros Hst.
  apply (foldM_invariant _ (semiblocks n) (fun _ => True));
    [|apply Forall_forall; auto|exact Hst].
  intros s j s' Hs _.
  apply (foldM_invariant _ (semiblocks n) (fun i => (i < n)%nat));
    [|apply in_range_Forall_rev|exact Hs].
  intros s0 i s0' Hs0 Hi. now apply unwrap_step_semiblocks.
Qed.

(** What [aes_key_wrap] checked when it returns. *)
Lemma aes_key_wrap_Return_inv kek pt ct :
  aes_key_wrap kek pt = Return ct ->
  length kek ∈ [16; 24; 32]%nat /\ (16 <= length pt)%nat /\
  (length pt mod 8 = 0)%nat /\ _wrap_core kek aiv (chunks8 pt) = Return ct.
Proof.
  unfold aes_key_wrap. intros Hrun.
  destruct (decide (length kek ∈ [16; 24; 32]%nat)) as [Hkek|Hkek].
  - rewrite (bool_decide_eq_true_2 _ Hkek) in Hrun.
    destruct (Nat.ltb_spec (length pt) 16); [discriminate|].
    destruct (Nat.eqb_spec (length pt mod 8) 0); [auto|discriminate].
  - rewrite (bool_decide_eq_false_2 _ Hkek) in Hrun. discriminate.
Qed.

Lemma aes_key_wrap_length kek pt ct :
  aes_key_wrap kek pt = Return ct -> length ct = (length pt + 8)%nat.
Proof.
  intros Hrun.
  apply aes_key_wrap_Return_inv in Hrun as (_ & _ & Hmod & Hcore).
  destruct (chunks8_aligned pt Hmod) as [Hall Hlen].
  unfold _wrap_core in Hcore.
  apply bind_Return_inv in Hcore as ([a' r'] & Hloops & Hret).
  injection Hret as <-.
  apply wrap_loops_semiblocks in Hloops as (Ha' & Hr' & Hall');
    [|repeat split; try reflexivity; exact Hall].
  simpl in Ha', Hr', Hall'. simpl fst. simpl snd.
  rewrite length_app, length_concat8, Ha', Hr' by exact Hall'. lia.
Qed.

(** What [aes_key_unwrap] checked when it returns. *)
Lemma aes_key_unwrap_Return_inv kek ct pt :
  aes_key_unwrap kek ct = Return pt ->
  length kek ∈ [16; 24; 32]%nat /\ (24 <= length ct)%nat /\
  (length ct mod 8 = 0)%nat /\
  exists a r st,
    chunks8 ct = a :: r /\ _unwrap_core kek a r = Return st /\
    st.1 = aiv /\ pt = concat st.2.
Proof.
  unfold aes_key_unwrap. intros Hrun.
  destruct (Nat.ltb_spec (length ct) 24); [discriminate|].
  destruct (Nat.eqb_spec (length ct mod 8) 0) as [Hmod|]; [|discriminate].
  destruct (decide (length kek ∈ [16; 24; 32]%nat)) as [Hkek|Hkek].
  - rewrite (bool_decide_eq_true_2 _ Hkek) in Hrun.
    destruct (chunks8 ct) as [|a r]; [discriminate|].
    apply bind_Return_inv in Hrun as (st & Hcore & Hret).
    destruct (decide (st.1 = aiv)) as [Hiv|Hiv].
    + rewrite (bool_decide_eq_true_2 _ Hiv) in Hret. injection Hret as <-.
      repeat split; try assumption. exists a, r, st. auto.
    + rewrite (bool_decide_eq_false_2 _ Hiv) in Hret. discriminate.
  - rewrite (bool_decide_eq_false_2 _ Hkek) in Hrun. discriminate.
Qed.

Lemma aes_key_unwrap_length kek ct pt :
  aes_key_unwrap kek ct = Return pt -> (length pt + 8)%nat = length ct.
Proof.
  intros Hrun.
  apply aes_key_unwrap_Return_inv in Hrun
    as (_ & _ & Hmod & a & r & [a' r'] & Hchunks & Hcore & _ & ->).
  destruct (chunks8_aligned ct Hmod) as [Hall Hlen].
  rewrite Hchunks in Hall, Hlen. inversion Hall as [|? ? Ha Hr]; subst.
  apply unwrap_loops_semiblocks in Hcore as (_ & Hr' & Hall');
    [|repeat split; assumption].
  simpl in Hr', Hall'. simpl snd.
  rewrite length_concat8, Hr', Hlen by exact Hall'. simpl length. lia.
Qed.

(** On inputs within the size of a bytes object, [aes_key_wrap] returns
    exactly when its three input checks pass. *)
Lemma aes_key_wrap_Return_iff kek pt :
  (N.of_nat (length pt) < 2 ^ 63)%N ->
  (exists ct, aes_key_wrap kek pt = Return ct) <->
  length kek ∈ [16; 24; 32]%nat /\ (16 <= length pt)%nat /\
  (length pt mod 8 = 0)%nat.
Proof.
  intros Hmax. split.
  - intros [ct Hrun]. apply aes_key_wrap_Return_inv in Hrun. tauto.
  - intros (Hkek & Hmin & Hmod).
    destruct (aes_key_unwrap_wrap kek pt Hkek Hmin Hmod Hmax) as (ct & Hw & _).
    eauto.
Qed.

End KeyWrapLengths.

(** ** Construction, [encode_key] and [decode_key] *)

Section AESKeyWrapFurther.
Import keywrap KeyWrapFacts KeyWrapLengths Fixtures.

Lemma check_key_length_Return self size self' :
  AESKeyWrap.check_key_length self size = Return self' ->
  self' = self /\ (_key self = [] \/ length (_key self) = size).
Proof.
  rewrite check_key_length_spec.
  destruct (decide (_key self = [] \/ length (_key self) = size));
    [|discriminate].
  intros Heq. injection Heq as <-. auto.
Qed.

(** X1. Every recipient that [AESKeyWrap.__init__] returns has one of the
    algorithm ids -3, -4, -5 and a shared secret that is either empty or
    exactly 16, 24 or 32 bytes long, respectively. *)
Theorem init_establishes_key_size
    protected unprotected ciphertext recipients key_ops key self :
  AESKeyWrap.__init__ protected unprotected ciphertext recipients key_ops key
  = Return self ->
  exists size,
    (_alg self, size) ∈ [(-3, 16%nat); (-4, 24%nat); (-5, 32%nat)] /\
    (_key self = [] \/ length (_key self) = size).
Proof.
  unfold AESKeyWrap.__init__. intros Hinit.
  apply bind_Return_inv in Hinit as (base & _ & Hchecks).
  destruct (Z.eqb_spec (_alg base) (-3)) as [Ha|_].
  { apply check_key_length_Return in Hchecks as [-> Hk].
    exists 16%nat. split; [apply recognized_alg_size; auto|exact Hk]. }
  destruct (Z.eqb_spec (_alg base) (-4)) as [Ha|_].
  { apply check_key_length_Return in Hchecks as [-> Hk].
    exists 24%nat. split; [apply recognized_alg_size; auto|exact Hk]. }
  destruct (Z.eqb_spec (_alg base) (-5)) as [Ha|_]; [|discriminate].
  apply check_key_length_Return in Hchecks as [-> Hk].
  exists 32%nat. split; [apply recognized_alg_size; auto|exact Hk].
Qed.

Lemma init_establishes_key_size_witness :
  exists size,
    (_alg sender, size) ∈ [(-3, 16%nat); (-4, 24%nat); (-5, 32%nat)] /\
    (_key sender = [] \/ length (_key sender) = size).
Proof.
  apply (init_establishes_key_size {[ 1 := CInt (-3) ]}
           {[ 4 := CBytes [x30; x31] ]} [] [] [] rfc3394_kek sender).
  reflexivity.
Defined.

Lemma constructed_key_length
    protected unprotected ciphertext recipients key_ops key self :
  AESKeyWrap.__init__ protected unprotected ciphertext recipients key_ops key
  = Return self ->
  (length (_key self) ∈ [16; 24; 32]%nat <-> _key self <> []).
Proof.
  intros Hinit.
  destruct (init_establishes_key_size _ _ _ _ _ _ _ Hinit) as (size & Hsize & Hk).
  apply recognized_alg_size in Hsize. rewrite !elem_of_cons, elem_of_nil.
  destruct Hk as [Hk|Hk].
  - rewrite Hk. simpl. split; [lia|congruence].
  - split; [intros _ Hnil; rewrite Hnil in Hk; simpl in Hk; lia|].
    intros _. rewrite Hk. destruct Hsize as [[_ ->] | [[_ ->] | [_ ->]]]; auto.
Qed.

(** X2. On a constructed recipient, [encode_key] of a key (shorter than
    2^63 bytes) succeeds exactly when the recipient holds a shared secret
    and the key's raw bytes are at least 16 bytes and a multiple of 8 bytes
    long; in every other case it raises [EncodeError] and leaves the
    recipient as it was. *)
Theorem encode_key_succeeds_iff
    protected unprotected ciphertext recipients key_ops secret self k rk a ctx :
  AESKeyWrap.__init__ protected unprotected ciphertext recipients key_ops secret
  = Return self ->
  (N.of_nat (length (key k)) < 2 ^ 63)%N ->
  ((exists self',
       AESKeyWrap.encode_key (Some k) rk a ctx self
       = (Return k, self', [Call "aes_key_wrap"; SetAttr attr_ciphertext]))
   <-> _key self <> [] /\ (16 <= length (key k))%nat /\
       (length (key k) mod 8 = 0)%nat) /\
  ((exists cause,
       AESKeyWrap.encode_key (Some k) rk a ctx self
       = (Raise (EncodeError "Failed to wrap key." (Some cause)), self,
          [Call "aes_key_wrap"]))
   <-> ~ (_key self <> [] /\ (16 <= length (key k))%nat /\
          (length (key k) mod 8 = 0)%nat)).
Proof.
  intros Hinit Hmax.
  pose proof (constructed_key_length _ _ _ _ _ _ _ Hinit) as Hlen.
  pose proof (aes_key_wrap_Return_iff (_key self) (key k) Hmax) as Hiff.
  rewrite Hlen in Hiff.
  destruct (aes_key_wrap (_key self) (key k)) as [ct|e] eqn:Hwrap.
  - assert (_key self <> [] /\ (16 <= length (key k))%nat /\
            (length (key k) mod 8 = 0)%nat) as Hok by (apply Hiff; eauto).
    rewrite (encode_key_Return self k rk a ctx ct Hwrap). split.
    + split; [intros _; exact Hok|intros _; eauto].
    + split; [intros [cause Heq]; discriminate|tauto].
  - assert (~ (_key self <> [] /\ (16 <= length (key k))%nat /\
               (length (key k) mod 8 = 0)%nat)) as Hbad.
    { intros Hok. apply Hiff in Hok as [ct Hct]. discriminate. }
    rewrite (encode_key_Raise self k rk a ctx e Hwrap). split.
    + split; [intros [self' Heq]; discriminate|tauto].
    + split; [intros _; exact Hbad|intros _; eauto].
Qed.

Lemma encode_key_succeeds_iff_witness :
  ((exists self',
       AESKeyWrap.encode_key (Some cek) None None None sender
       = (Return cek, self', [Call "aes_key_wrap"; SetAttr attr_ciphertext]))
   <-> _key sender <> [] /\ (16 <= length (key cek))%nat /\
       (length (key cek) mod 8 = 0)%nat) /\
  ((exists cause,
       AESKeyWrap.encode_key (Some cek) None None None sender
       = (Raise (EncodeError "Failed to wrap key." (Some cause)), sender,
          [Call "aes_key_wrap"]))
   <-> ~ (_key sender <> [] /\ (16 <= length (key cek))%nat /\
          (length (key cek) mod 8 = 0)%nat)).
Proof.
  apply (encode_key_succeeds_iff {[ 1 := CInt (-3) ]}
           {[ 4 := CBytes [x30; x31] ]} [] [] [] rfc3394_kek sender cek
           None None None).
  - reflexivity.
  - vm_compute. reflexivity.
Defined.

Lemma encode_key_Return_inv self k rk a ctx k' self' trace :
  AESKeyWrap.encode_key k rk a ctx self = (Return k', self', trace) ->
  k = Some k' /\
  exists wrapped,
    aes_key_wrap (_key self) (key k') = Return wrapped /\
    _ciphertext self' = wrapped /\ _key self' = _key self /\
    _kid self' = _kid self.
Proof.
  destruct k as [k|]; [|discriminate].
  destruct (aes_key_wrap (_key self) (key k)) as [ct|e] eqn:Hwrap.
  - rewrite (encode_key_Return self k rk a ctx ct Hwrap).
    intros Heq. injection Heq as <- <- _. split; [reflexivity|].
    exists ct. auto.
  - rewrite (encode_key_Raise self k rk a ctx e Hwrap). discriminate.
Qed.

(** X3. Whenever [encode_key] returns, the ciphertext it stored is exactly
    8 bytes longer than the raw bytes of the key it wrapped. *)
Theorem encode_key_ciphertext_length self k rk a ctx k' self' trace :
  AESKeyWrap.encode_key k rk a ctx self = (Return k', self', trace) ->
  length (_ciphertext self') = (length (key k') + 8)%nat.
Proof.
  intros Hrun.
  apply encode_key_Return_inv in Hrun as (_ & wrapped & Hwrap & -> & _).
  exact (aes_key_wrap_length _ _ _ Hwrap).
Qed.

Lemma encode_key_ciphertext_length_witness :
  length (_ciphertext sender_after) = (length (key cek) + 8)%nat.
Proof.
  apply (encode_key_ciphertext_length sender (Some cek) None None None cek
           sender_after [Call "aes_key_wrap"; SetAttr attr_ciphertext]).
  vm_compute. reflexivity.
Defined.

Lemma decode_key_cases `{COSEKeyAPI} self sk a ctx :
  (a = None \/ a = Some 0) /\
  AESKeyWrap.decode_key sk a ctx self
  = (Raise (ValueError "alg should be set."), self, [])
  \/
  exists a', a = Some a' /\ a' <> 0 /\
    ((exists e,
         aes_key_unwrap (key sk) (_ciphertext self) = Raise e /\
         AESKeyWrap.decode_key sk a ctx self
         = (Raise (DecodeError "Failed to decode key." (Some e)), self,
            [Call "aes_key_unwrap"]))
     \/
     exists pt,
       aes_key_unwrap (key sk) (_ciphertext self) = Return pt /\
       ((exists e,
            from_symmetric_key pt a' (_kid self) = Raise e /\
            AESKeyWrap.decode_key sk a ctx self
            = (Raise (DecodeError "Failed to decode key." (Some e)), self,
               [Call "aes_key_unwrap"; Call "from_symmetric_key"]))
        \/
        exists k',
          from_symmetric_key pt a' (_kid self) = Return k' /\
          AESKeyWrap.decode_key sk a ctx self
          = (Return k', self,
             [Call "aes_key_unwrap"; Call "from_symmetric_key"]))).
Proof.
  destruct a as [a'|]; [|left; split; [auto|reflexivity]].
  destruct (Z.eq_dec a' 0) as [->|Hne]; [left; split; [auto|reflexivity]|].
  right. exists a'. split; [reflexivity|]. split; [exact Hne|].
  destruct (aes_key_unwrap (key sk) (_ciphertext self)) as [pt|e] eqn:Hunwrap.
  - right. exists pt. split; [reflexivity|].
    destruct (from_symmetric_key pt a' (_kid self)) as [k'|e] eqn:Hbuild.
    + right. exists k'. split; [reflexivity|]. now apply decode_key_Return with pt.
    + left. exists e. split; [reflexivity|].
      now apply decode_key_build_Raise with pt.
  - left. exists e. split; [reflexivity|]. now apply decode_key_unwrap_Raise.
Qed.

(** X4. [decode_key] never modifies the recipient: whatever the arguments
    and whatever the outcome, the recipient after the call is the recipient
    before it and the call assigns no attribute. *)
Theorem decode_key_leaves_recipient `{COSEKeyAPI} self sk a ctx :
  (AESKeyWrap.decode_key sk a ctx self).1.2 = self /\
  forall attr, SetAttr attr ∉ (AESKeyWrap.decode_key sk a ctx self).2.
Proof.
  destruct (decode_key_cases self sk a ctx)
    as [[_ ->] | (a' & _ & _ & [(e & _ & ->) | (pt & _ &
         [(e & _ & ->) | (k' & _ & ->)])])];
    (split; [reflexivity|]); intros attr; cbn [fst snd];
    rewrite ?elem_of_cons, elem_of_nil; intuition discriminate.
Qed.

(** X5. Whenever [decode_key] returns a key built by a factory that honours
    its interface, the key's raw bytes are exactly 8 bytes shorter than the
    stored ciphertext, and the ciphertext is at least 24 bytes and a
    multiple of 8 bytes long. *)
Theorem decode_key_key_length `{COSEKeyAPI} self sk a ctx k' self' trace :
  builds_symmetric_keys ->
  AESKeyWrap.decode_key sk a ctx self = (Return k', self', trace) ->
  (length (key k') + 8)%nat = length (_ciphertext self) /\
  (24 <= length (_ciphertext self))%nat /\
  (length (_ciphertext self) mod 8 = 0)%nat.
Proof.
  intros Hcontract Hrun.
  destruct (decode_key_cases self sk a ctx)
    as [[_ Heq] | (a' & _ & _ & [(e & _ & Heq) | (pt & Hunwrap &
         [(e & _ & Heq) | (k1 & Hbuild & Heq)])])];
    rewrite Heq in Hrun; try discriminate.
  injection Hrun as -> _ _.
  destruct (Hcontract _ _ _ _ Hbuild) as (-> & _).
  split; [exact (aes_key_unwrap_length _ _ _ Hunwrap)|].
  apply aes_key_unwrap_Return_inv in Hunwrap. tauto.
Qed.

Lemma decode_key_key_length_witness :
  (length (key (symmetric 1 (Some [x30; x31]) rfc3394_key_data)) + 8)%nat
  = length (_ciphertext receiver) /\
  (24 <= length (_ciphertext receiver))%nat /\
  (length (_ciphertext receiver) mod 8 = 0)%nat.
Proof.
  apply (@decode_key_key_length (plain_keys (Return [])) receiver kek (Some 1)
           None (symmetric 1 (Some [x30; x31]) rfc3394_key_data) receiver
           [Call "aes_key_unwrap"; Call "from_symmetric_key"]).
  - apply plain_keys_contract.
  - vm_compute. reflexivity.
Defined.

(** X6. [decode_key] on a recipient whose ciphertext is shorter than 24
    bytes (the default, empty ciphertext included) or not a multiple of 8
    bytes long raises [DecodeError] "Failed to decode key." with an
    [InvalidUnwrap] cause, for every key argument and every non-zero alg;
    the key factory is not called. *)
Theorem decode_key_rejects_malformed_ciphertext `{COSEKeyAPI} self sk a ctx :
  a <> 0 ->
  (length (_ciphertext self) < 24)%nat \/
  (length (_ciphertext self) mod 8 <> 0)%nat ->
  exists msg,
    AESKeyWrap.decode_key sk (Some a) ctx self
    = (Raise (DecodeError "Failed to decode key." (Some (InvalidUnwrap msg))),
       self, [Call "aes_key_unwrap"]).
Proof.
  intros Ha Hbad.
  assert (exists msg, aes_key_unwrap (key sk) (_ciphertext self)
                      = Raise (InvalidUnwrap msg)) as [msg Hunwrap].
  { unfold aes_key_unwrap.
    destruct (Nat.ltb_spec (length (_ciphertext self)) 24); [eauto|].
    destruct (Nat.eqb_spec (length (_ciphertext self) mod 8) 0); [lia|eauto]. }
  exists msg. now apply decode_key_unwrap_Raise.
Qed.

Lemma decode_key_rejects_malformed_ciphertext_witness :
  exists msg,
    @AESKeyWrap.decode_key (plain_keys (Return [])) kek (Some 1) None sender
    = (Raise (DecodeError "Failed to decode key." (Some (InvalidUnwrap msg))),
       sender, [Call "aes_key_unwrap"]).
Proof.
  apply (@decode_key_rejects_malformed_ciphertext (plain_keys (Return []))
           sender kek 1 None).
  - lia.
  - left. simpl. lia.
Defined.

(** X7. A wrapped key can be recovered from any recipient that carries the
    ciphertext, whatever secret that recipient itself stores: after
    [encode_key(k)] on a recipient holding the shared secret, [decode_key]
    on a recipient with the same ciphertext, given the shared secret as the
    key argument and a non-zero alg the factory accepts, returns a key with
    the raw bytes of [k] and the key id of the decoding recipient. *)
Theorem decode_key_on_received_ciphertext `{COSEKeyAPI}
    wrapper k rk a0 ctx0 k0 wrapper' trace receiver sk a ctx k' :
  builds_symmetric_keys ->
  AESKeyWrap.encode_key k rk a0 ctx0 wrapper = (Return k0, wrapper', trace) ->
  (N.of_nat (length (key k0)) < 2 ^ 63)%N ->
  _ciphertext receiver = _ciphertext wrapper' ->
  key sk = _key wrapper ->
  a <> 0 ->
  from_symmetric_key (key k0) a (_kid receiver) = Return k' ->
  AESKeyWrap.decode_key sk (Some a) ctx receiver
  = (Return k', receiver, [Call "aes_key_unwrap"; Call "from_symmetric_key"]) /\
  key k' = key k0 /\ alg k' = a /\ kid k' = _kid receiver.
Proof.
  intros Hcontract Hrun Hmax Hct Hsk Ha Hbuild.
  apply encode_key_Return_inv in Hrun as (_ & wrapped & Hwrap & Hstored & _).
  pose proof (aes_key_wrap_Return_inv _ _ _ Hwrap) as (Hkek & Hmin & Hmod & _).
  destruct (aes_key_unwrap_wrap _ _ Hkek Hmin Hmod Hmax) as (ct & Hw & Hunwrap).
  rewrite Hwrap in Hw. injection Hw as <-.
  split; [|exact (Hcontract _ _ _ _ Hbuild)].
  apply decode_key_Return with (key k0); [exact Ha| |exact Hbuild].
  now rewrite Hsk, Hct, Hstored.
Qed.

Lemma decode_key_on_received_ciphertext_witness :
  @AESKeyWrap.decode_key (plain_keys (Return [])) kek (Some 1) None receiver
  = (Return (symmetric 1 (Some [x30; x31]) rfc3394_key_data), receiver,
     [Call "aes_key_unwrap"; Call "from_symmetric_key"]) /\
  key (symmetric 1 (Some [x30; x31]) rfc3394_key_data) = key cek /\
  alg (symmetric 1 (Some [x30; x31]) rfc3394_key_data) = 1 /\
  kid (symmetric 1 (Some [x30; x31]) rfc3394_key_data) = _kid receiver.
Proof.
  apply (@decode_key_on_received_ciphertext (plain_keys (Return []))
           sender (Some cek) None None None cek sender_after
           [Call "aes_key_wrap"; SetAttr attr_ciphertext] receiver kek 1 None).
  - apply plain_keys_contract.
  - vm_compute. reflexivity.
  - vm_compute. reflexivity.
  - reflexivity.
  - reflexivity.
  - lia.
  - reflexivity.
Defined.

(** X8. Under one shared secret, keys with different raw bytes are wrapped
    to different ciphertexts: if two [encode_key] calls on the same
    recipient return and store the same ciphertext, the two keys have the
    same raw bytes. *)
Theorem encode_key_injective
    self k1 k2 rk1 rk2 a1 a2 ctx1 ctx2 r1 r2 self1 self2 trace1 trace2 :
  AESKeyWrap.encode_key k1 rk1 a1 ctx1 self = (Return r1, self1, trace1) ->
  AESKeyWrap.encode_key k2 rk2 a2 ctx2 self = (Return r2, self2, trace2) ->
  (N.of_nat (length (key r1)) < 2 ^ 63)%N ->
  (N.of_nat (length (key r2)) < 2 ^ 63)%N ->
  _ciphertext self1 = _ciphertext self2 ->
  key r1 = key r2.
Proof.
  intros Hrun1 Hrun2 Hmax1 Hmax2 Hct.
  apply encode_key_Return_inv in Hrun1 as (_ & w1 & Hwrap1 & Hs1 & _).
  apply encode_key_Return_inv in Hrun2 as (_ & w2 & Hwrap2 & Hs2 & _).
  pose proof (aes_key_wrap_Return_inv _ _ _ Hwrap1) as (Hkek & Hmin1 & Hmod1 & _).
  pose proof (aes_key_wrap_Return_inv _ _ _ Hwrap2) as (_ & Hmin2 & Hmod2 & _).
  destruct (aes_key_unwrap_wrap _ _ Hkek Hmin1 Hmod1 Hmax1) as (c1 & Hw1 & Hu1).
  destruct (aes_key_unwrap_wrap _ _ Hkek Hmin2 Hmod2 Hmax2) as (c2 & Hw2 & Hu2).
  assert (c1 = w1) as -> by congruence.
  assert (c2 = w2) as -> by congruence.
  assert (w1 = w2) as -> by congruence.
  congruence.
Qed.

Lemma encode_key_injective_witness : key cek = key (symmetric 7 None rfc3394_key_data).
Proof.
  apply (encode_key_injective sender (Some cek)
           (Some (symmetric 7 None rfc3394_key_data)) None None None None
           None None cek (symmetric 7 None rfc3394_key_data)
           sender_after sender_after
           [Call "aes_key_wrap"; SetAttr attr_ciphertext]
           [Call "aes_key_wrap"; SetAttr attr_ciphertext]).
  - vm_compute. reflexivity.
  - vm_compute. reflexivity.
  - vm_compute. reflexivity.
  - vm_compute. reflexivity.
  - reflexivity.
Defined.

End AESKeyWrapFurther.

(** ** [aes_key_wrap] inverts [aes_key_unwrap] *)

Module AESInverseFacts.
Import AES AESFacts.

Lemma sbox_inv_sbox : forall a, sbox (inv_sbox a) = a.
Proof. byte_enum. Qed.

(** The product of the two circulant matrices in the other order. *)
Lemma mix_coef_0_0 : forall a, xor4 (m2 (m14 a)) (m3 (m9 a)) (m13 a) (m11 a) = a.
Proof. byte_enum. Qed.
Lemma mix_coef_0_1 : forall a, xor4 (m2 (m11 a)) (m3 (m14 a)) (m9 a) (m13 a) = x00.
Proof. byte_enum. Qed.
Lemma mix_coef_0_2 : forall a, xor4 (m2 (m13 a)) (m3 (m11 a)) (m14 a) (m9 a) = x00.
Proof. byte_enum. Qed.
Lemma mix_coef_0_3 : forall a, xor4 (m2 (m9 a)) (m3 (m13 a)) (m11 a) (m14 a) = x00.
Proof. byte_enum. Qed.
Lemma mix_coef_1_0 : forall a, xor4 (m14 a) (m2 (m9 a)) (m3 (m13 a)) (m11 a) = x00.
Proof. byte_enum. Qed.
Lemma mix_coef_1_1 : forall a, xor4 (m11 a) (m2 (m14 a)) (m3 (m9 a)) (m13 a) = a.
Proof. byte_enum. Qed.
Lemma mix_coef_1_2 : forall a, xor4 (m13 a) (m2 (m11 a)) (m3 (m14 a)) (m9 a) = x00.
Proof. byte_enum. Qed.
Lemma mix_coef_1_3 : forall a, xor4 (m9 a) (m2 (m13 a)) (m3 (m11 a)) (m14 a) = x00.
Proof. byte_enum. Qed.
Lemma mix_coef_2_0 : forall a, xor4 (m14 a) (m9 a) (m2 (m13 a)) (m3 (m11 a)) = x00.
Proof. byte_enum. Qed.
Lemma mix_coef_2_1 : forall a, xor4 (m11 a) (m14 a) (m2 (m9 a)) (m3 (m13 a)) = x00.
Proof. byte_enum. Qed.
Lemma mix_coef_2_2 : forall a, xor4 (m13 a) (m11 a) (m2 (m14 a)) (m3 (m9 a)) = a.
Proof. byte_enum. Qed.
Lemma mix_coef_2_3 : forall a, xor4 (m9 a) (m13 a) (m2 (m11 a)) (m3 (m14 a)) = x00.
Proof. byte_enum. Qed.
Lemma mix_coef_3_0 : forall a, xor4 (m3 (m14 a)) (m9 a) (m13 a) (m2 (m11 a)) = x00.
Proof. byte_enum. Qed.
Lemma mix_coef_3_1 : forall a, xor4 (m3 (m11 a)) (m14 a) (m9 a) (m2 (m13 a)) = x00.
Proof. byte_enum. Qed.
Lemma mix_coef_3_2 : forall a, xor4 (m3 (m13 a)) (m11 a) (m14 a) (m2 (m9 a)) = x00.
Proof. byte_enum. Qed.
Lemma mix_coef_3_3 : forall a, xor4 (m3 (m9 a)) (m13 a) (m11 a) (m2 (m14 a)) = a.
Proof. byte_enum. Qed.

Lemma mix_column_inv_mix_column w : mix_column (inv_mix_column w) = w.
Proof.
  destruct w as [[[s0 s1] s2] s3]. unfold inv_mix_column, mix_column.
  rewrite !(xor4_linear m2 m2_bxor), !(xor4_linear m3 m3_bxor).
  repeat apply f_equal2.
  - rewrite xor4_transpose, mix_coef_0_0, mix_coef_0_1, mix_coef_0_2, mix_coef_0_3.
    apply xor4_first.
  - rewrite xor4_transpose, mix_coef_1_0, mix_coef_1_1, mix_coef_1_2, mix_coef_1_3.
    apply xor4_second.
  - rewrite xor4_transpose, mix_coef_2_0, mix_coef_2_1, mix_coef_2_2, mix_coef_2_3.
    apply xor4_third.
  - rewrite xor4_transpose, mix_coef_3_0, mix_coef_3_1, mix_coef_3_2, mix_coef_3_3.
    apply xor4_fourth.
Qed.

Lemma sub_bytes_inv_sub_bytes s : sub_bytes (inv_sub_bytes s) = s.
Proof.
  destruct s as [[[[[[a0 a1] a2] a3] [[[b0 b1] b2] b3]] [[[c0 c1] c2] c3]]
                   [[[d0 d1] d2] d3]].
  unfold inv_sub_bytes, sub_bytes, smap, wmap. now rewrite !sbox_inv_sbox.
Qed.

Lemma shift_rows_inv_shift_rows s : shift_rows (inv_shift_rows s) = s.
Proof.
  now destruct s as [[[[[[a0 a1] a2] a3] [[[b0 b1] b2] b3]] [[[c0 c1] c2] c3]]
                       [[[d0 d1] d2] d3]].
Qed.

Lemma mix_columns_inv_mix_columns s : mix_columns (inv_mix_columns s) = s.
Proof.
  destruct s as [[[c0 c1] c2] c3]. unfold inv_mix_columns, mix_columns, smap.
  now rewrite !mix_column_inv_mix_column.
Qed.

Lemma enc_round_dec_round rk s : enc_round (dec_round rk s) rk = s.
Proof.
  unfold dec_round, enc_round.
  now rewrite sub_bytes_inv_sub_bytes, shift_rows_inv_shift_rows,
    mix_columns_inv_mix_columns, add_round_key_involutive.
Qed.

Lemma enc_rounds_dec_rounds rks : forall s, enc_rounds (dec_rounds rks s) rks = s.
Proof.
  induction rks as [|rk rest IH]; intros s; [reflexivity|].
  destruct rest as [|rk' rest'].
  - simpl. now rewrite sub_bytes_inv_sub_bytes, shift_rows_inv_shift_rows,
      add_round_key_involutive.
  - change (enc_rounds (enc_round (dec_round rk (dec_rounds (rk' :: rest') s)) rk)
              (rk' :: rest') = s).
    now rewrite enc_round_dec_round, IH.
Qed.

Lemma cipher_inv_cipher rks s : cipher rks (inv_cipher rks s) = s.
Proof.
  destruct rks as [|rk0 rest]; [reflexivity|]. unfold inv_cipher, cipher.
  now rewrite add_round_key_involutive, enc_rounds_dec_rounds.
Qed.

Lemma bytes_of_state_inj s t : bytes_of_state s = bytes_of_state t -> s = t.
Proof.
  destruct s as [[[[[[a0 a1] a2] a3] [[[b0 b1] b2] b3]] [[[c0 c1] c2] c3]]
                   [[[d0 d1] d2] d3]],
           t as [[[[[[a0' a1'] a2'] a3'] [[[b0' b1'] b2'] b3']]
                    [[[c0' c1'] c2'] c3']] [[[d0' d1'] d2'] d3']].
  simpl. congruence.
Qed.

Lemma ecb_encrypt_decrypt key data :
  length data = 16%nat -> ecb_encrypt key (ecb_decrypt key data) = data.
Proof.
  intros Hlen. unfold ecb_encrypt, ecb_decrypt.
  destruct (ecb_block (inv_cipher (key_expansion key)) data Hlen) as (s & -> & ->).
  destruct (ecb_block (cipher (key_expansion key))
              (bytes_of_state (inv_cipher (key_expansion key) s))
              (length_bytes_of_state _)) as (s' & Hs' & ->).
  apply bytes_of_state_inj in Hs'. subst s'.
  now rewrite cipher_inv_cipher.
Qed.

End AESInverseFacts.

Module KeyWrapInverse.
Import keywrap ResultFacts KeyWrapFacts KeyWrapLengths.

(** A loop that returned is undone by the loop of the inverse body run
    backwards. *)
Lemma foldM_rev_undo {S X : Type} (f g : S -> X -> result S)
    (I : S -> Prop) (P : X -> Prop) :
  (forall s x s', I s -> P x -> g s x = Return s' ->
     I s' /\ f s' x = Return s) ->
  forall xs s s', Forall P xs -> I s ->
    foldM g (rev xs) s = Return s' -> I s' /\ foldM f xs s' = Return s.
Proof.
  intros Hstep xs. induction xs as [|x xs IH]; intros s s' HP HI Hrun.
  - injection Hrun as <-. auto.
  - inversion HP as [|? ? Hx Hxs]; subst.
    simpl rev in Hrun. rewrite foldM_app in Hrun.
    apply bind_Return_inv in Hrun as (s1 & Hrev & Hlast).
    simpl in Hlast. apply bind_Return_inv in Hlast as (s2 & Hg & Hret).
    injection Hret as <-.
    destruct (IH s s1 Hxs HI Hrev) as (HI1 & Hfs).
    destruct (Hstep s1 x s2 HI1 Hx Hg) as (HI2 & Hf).
    split; [exact HI2|]. simpl. now rewrite Hf, bind_Return.
Qed.

Lemma to_bytes_8_Return_inv v a :
  to_bytes v 8 = Return a -> (v < 2 ^ 64)%N /\ a = int_to_bytes 8 v.
Proof.
  unfold to_bytes. change (256 ^ N.of_nat 8)%N with (2 ^ 64)%N.
  destruct (N.ltb_spec v (2 ^ 64)); [|discriminate].
  intros Heq. injection Heq as <-. auto.
Qed.

Lemma wrap_step_unwrap_step kek n j st i st' :
  semiblocks n st -> (i < n)%nat ->
  unwrap_step kek n j st i = Return st' ->
  semiblocks n st' /\ wrap_step kek n j st' i = Return st.
Proof.
  intros Hst Hi Hrun.
  split; [exact (unwrap_step_semiblocks kek n j st i st' Hst Hi Hrun)|].
  destruct st as [a r].
  destruct (semiblocks_lookup n a r i Hst Hi) as (ri & Hri & Hlri).
  destruct Hst as (Ha & Hr & _). simpl in Ha, Hr.
  unfold unwrap_step in Hrun. cbv beta iota zeta in Hrun.
  apply bind_Return_inv in Hrun as (a' & Ha' & Hret).
  apply to_bytes_8_Return_inv in Ha' as (Hv & ->).
  rewrite Hri in Hret. change (default [] (Some ri)) with ri in Hret.
  set (t := N.of_nat (n * j + i + 1)) in *.
  set (v := N.lxor (int_from_bytes a) t) in *.
  set (atr := int_to_bytes 8 v ++ ri) in *.
  assert (length atr = 16%nat) as Hatr
    by (unfold atr; rewrite length_app, length_int_to_bytes; lia).
  pose proof (length_ecb_decrypt kek atr Hatr) as Hb.
  set (b := AES.ecb_decrypt kek atr) in *.
  injection Hret as <-.
  unfold wrap_step. cbv beta iota zeta. fold t.
  rewrite list_lookup_insert_eq by lia.
  change (default [] (Some (drop (length b - 8) b)))
    with (drop (length b - 8) b).
  rewrite Hb. change (16 - 8)%nat with 8%nat. rewrite take_drop.
  unfold b. rewrite AESInverseFacts.ecb_encrypt_decrypt by exact Hatr.
  rewrite Hatr. change (16 - 8)%nat with 8%nat.
  unfold atr.
  rewrite take_app_length', drop_app_length'
    by (symmetry; apply length_int_to_bytes).
  rewrite int_from_bytes_to_bytes by exact Hv.
  unfold v. rewrite lxor_cancel_r.
  rewrite to_bytes_8 by (apply int_from_bytes_8, Ha).
  rewrite bind_Return.
  rewrite (int_to_bytes_from_bytes_len 8 a Ha).
  rewrite list_insert_insert_eq, list_insert_id by exact Hri.
  reflexivity.
Qed.

Lemma wrap_core_unwrap_core kek n st st' :
  semiblocks n st ->
  foldM (fun st j => foldM (unwrap_step kek n j) (rev (seq 0 n)) st)
    (rev (seq 0 6)) st = Return st' ->
  semiblocks n st' /\
  foldM (fun st j => foldM (wrap_step kek n j) (seq 0 n) st) (seq 0 6) st'
  = Return st.
Proof.
  intros Hst.
  apply (foldM_rev_undo _ _ (semiblocks n) (fun _ => True));
    [|apply Forall_forall; auto|exact Hst].
  intros s j s' Hs _.
  apply (foldM_rev_undo _ _ (semiblocks n) (fun i => (i < n)%nat));
    [|apply in_range_Forall|exact Hs].
  intros s0 i s0' Hs0 Hi. now apply wrap_step_unwrap_step.
Qed.

(** Wrapping what [aes_key_unwrap] returned, under the same key, gives the
    wrapped key back. *)
Lemma aes_key_wrap_unwrap kek ct pt :
  aes_key_unwrap kek ct = Return pt -> aes_key_wrap kek pt = Return ct.
Proof.
  intros Hrun.
  pose proof (aes_key_unwrap_length _ _ _ Hrun) as Hlen.
  apply aes_key_unwrap_Return_inv in Hrun
    as (Hkek & Hmin & Hmod & a & r & [a' r'] & Hchunks & Hcore & Hiv & ->).
  simpl in Hiv. subst a'. simpl snd in *.
  destruct (chunks8_aligned ct Hmod) as [Hall Hct].
  rewrite Hchunks in Hall. inversion Hall as [|? ? Ha Hr]; subst.
  unfold _unwrap_core in Hcore.
  apply wrap_core_unwrap_core in Hcore as ((_ & Hr' & Hall') & Hwrap);
    [|repeat split; assumption].
  simpl in Hr', Hall'.
  unfold aes_key_wrap.
  rewrite (bool_decide_eq_true_2 _ Hkek).
  assert (length (concat r') mod 8 = 0)%nat as Hmod'.
  { rewrite (length_concat8 r' Hall'), Nat.mul_comm. apply Nat.Div0.mod_mul. }
  rewrite Hmod'.
  destruct (Nat.ltb_spec (length (concat r')) 16); [lia|].
  unfold _wrap_core.
  rewrite (chunks8_concat r' Hall'), Hr', Hwrap, bind_Return.
  simpl fst. simpl snd.
  change (a ++ concat r) with (concat (a :: r)).
  now rewrite <- Hchunks, concat_chunks8.
Qed.

End KeyWrapInverse.

(** ** Decoding, then encoding *)

Section AESKeyWrapReverse.
Import keywrap KeyWrapFacts KeyWrapLengths KeyWrapInverse Fixtures.

Lemma decode_key_Return_inv `{COSEKeyAPI} self sk a ctx k' self' trace :
  AESKeyWrap.decode_key sk a ctx self = (Return k', self', trace) ->
  exists a' pt,
    a = Some a' /\ a' <> 0 /\
    aes_key_unwrap (key sk) (_ciphertext self) = Return pt /\
    from_symmetric_key pt a' (_kid self) = Return k'.
Proof.
  intros Hrun.
  destruct (decode_key_cases self sk a ctx)
    as [[_ Heq] | (a' & Ha & Hne & [(e & _ & Heq) | (pt & Hunwrap &
         [(e & _ & Heq) | (k1 & Hbuild & Heq)])])];
    rewrite Heq in Hrun; try discriminate.
  injection Hrun as -> _ _. exists a', pt. auto.
Qed.

(** X14. The round trip in the other direction: when [decode_key] returns a
    key (built by a factory that honours its interface), [encode_key] of
    that key on any recipient whose shared secret is the raw bytes of the
    key argument succeeds and stores exactly the ciphertext that was
    decoded. *)
Theorem encode_key_decode_key `{COSEKeyAPI}
    self sk a ctx k' self' trace wrapper rk a0 ctx0 :
  builds_symmetric_keys ->
  AESKeyWrap.decode_key sk a ctx self = (Return k', self', trace) ->
  _key wrapper = key sk ->
  exists wrapper',
    AESKeyWrap.encode_key (Some k') rk a0 ctx0 wrapper
    = (Return k', wrapper', [Call "aes_key_wrap"; SetAttr attr_ciphertext]) /\
    _ciphertext wrapper' = _ciphertext self.
Proof.
  intros Hcontract Hrun Hkey.
  apply decode_key_Return_inv in Hrun as (a' & pt & _ & _ & Hunwrap & Hbuild).
  destruct (Hcontract _ _ _ _ Hbuild) as (Hpt & _).
  apply aes_key_wrap_unwrap in Hunwrap.
  eexists. split.
  - apply encode_key_Return. rewrite Hkey, Hpt. exact Hunwrap.
  - reflexivity.
Qed.

Lemma encode_key_decode_key_witness :
  exists wrapper',
    AESKeyWrap.encode_key (Some (symmetric 1 (Some [x30; x31]) rfc3394_key_data))
      None None None sender
    = (Return (symmetric 1 (Some [x30; x31]) rfc3394_key_data), wrapper',
       [Call "aes_key_wrap"; SetAttr attr_ciphertext]) /\
    _ciphertext wrapper' = _ciphertext receiver.
Proof.
  apply (@encode_key_decode_key (plain_keys (Return [])) receiver kek (Some 1)
           None (symmetric 1 (Some [x30; x31]) rfc3394_key_data) receiver
           [Call "aes_key_unwrap"; Call "from_symmetric_key"] sender
           None None None).
  - apply plain_keys_contract.
  - vm_compute. reflexivity.
  - reflexivity.
Defined.

(** X15. Under one key argument, a key has a single wrapped form: if
    [decode_key] on two recipients returns keys with the same raw bytes
    (built by a factory that honours its interface), the two recipients
    carry the same ciphertext. *)
Theorem decode_key_injective `{COSEKeyAPI}
    self1 self2 sk a1 a2 ctx1 ctx2 k1 k2 self1' self2' trace1 trace2 :
  builds_symmetric_keys ->
  AESKeyWrap.decode_key sk a1 ctx1 self1 = (Return k1, self1', trace1) ->
  AESKeyWrap.decode_key sk a2 ctx2 self2 = (Return k2, self2', trace2) ->
  key k1 = key k2 ->
  _ciphertext self1 = _ciphertext self2.
Proof.
  intros Hcontract Hrun1 Hrun2 Hkeys.
  apply decode_key_Return_inv in Hrun1 as (b1 & pt1 & _ & _ & Hu1 & Hb1).
  apply decode_key_Return_inv in Hrun2 as (b2 & pt2 & _ & _ & Hu2 & Hb2).
  destruct (Hcontract _ _ _ _ Hb1) as (Hpt1 & _).
  destruct (Hcontract _ _ _ _ Hb2) as (Hpt2 & _).
  apply aes_key_wrap_unwrap in Hu1, Hu2.
  assert (pt1 = pt2) as -> by congruence. congruence.
Qed.

Lemma decode_key_injective_witness :
  _ciphertext receiver = _ciphertext sender_after.
Proof.
  apply (@decode_key_injective (plain_keys (Return [])) receiver sender_after
           kek (Some 1) (Some 7) None None
           (symmetric 1 (Some [x30; x31]) rfc3394_key_data)
           (symmetric 7 (Some [x30; x31]) rfc3394_key_data)
           receiver sender_after
           [Call "aes_key_unwrap"; Call "from_symmetric_key"]
           [Call "aes_key_unwrap"; Call "from_symmetric_key"]).
  - apply plain_keys_contract.
  - vm_compute. reflexivity.
  - vm_compute. reflexivity.
  - reflexivity.
Defined.

(** X16. [decode_key] with a key argument whose raw bytes are not 16, 24 or
    32 bytes long never returns a key: for every recipient and every
    non-zero alg it raises [DecodeError] "Failed to decode key." and the key
    factory is not called.  The length is not compared with the
    recipient's algorithm id. *)
Theorem decode_key_rejects_key_length `{COSEKeyAPI} self sk a ctx :
  a <> 0 ->
  length (key sk) ∉ [16; 24; 32]%nat ->
  exists cause,
    AESKeyWrap.decode_key sk (Some a) ctx self
    = (Raise (DecodeError "Failed to decode key." (Some cause)), self,
       [Call "aes_key_unwrap"]).
Proof.
  intros Ha Hlen.
  destruct (aes_key_unwrap (key sk) (_ciphertext self)) as [pt|e] eqn:Hunwrap.
  - apply aes_key_unwrap_Return_inv in Hunwrap as (Hkek & _). contradiction.
  - exists e. now apply decode_key_unwrap_Raise.
Qed.

Lemma decode_key_rejects_key_length_witness :
  exists cause,
    @AESKeyWrap.decode_key (plain_keys (Return []))
      (symmetric (-3) None [x00; x01; x02]) (Some 1) None receiver
    = (Raise (DecodeError "Failed to decode key." (Some cause)), receiver,
       [Call "aes_key_unwrap"]).
Proof.
  apply (@decode_key_rejects_key_length (plain_keys (Return [])) receiver
           (symmetric (-3) None [x00; x01; x02]) 1 None).
  - lia.
  - rewrite !elem_of_cons, elem_of_nil. simpl. lia.
Defined.

End AESKeyWrapReverse.

(** * Further properties of the encrypted COSE key envelope *)

Section EncryptedCOSEKeyFurther.
Import Fixtures.

Lemma encode_with_nonce_in_use
    `{COSEKeyAPI} `{COSEEngine} `{CBORProcessor} k ek nonce tagged n :
  (nonce <> [] /\ n = nonce \/ nonce = [] /\ generate_nonce ek = Return n) ->
  EncryptedCOSEKey.encode k ek nonce tagged
  = (d ← to_dict k;
     b_payload ← _dumps d;
     res ← cose_encode_and_encrypt b_payload ek {[ 1 := CInt (alg ek) ]}
             (<[ 5 := CBytes n ]>
                match kid ek with
                | Some (b :: bs) => {[ 4 := CBytes (b :: bs) ]}
                | _ => ∅
                end)
             n "cbor2/CBORTag";
     mret (value res)).
Proof.
  unfold EncryptedCOSEKey.encode.
  intros [[Hne ->] | [-> Hgen]].
  - destruct nonce as [|b bs]; [congruence|]. reflexivity.
  - simpl truthy. cbv iota. rewrite Hgen. reflexivity.
Qed.

Lemma unprotected_header (i : option bytes) (n : bytes) :
  <[ 5 := CBytes n ]>
    (match i with
     | Some (b :: bs) => {[ 4 := CBytes (b :: bs) ]}
     | _ => ∅
     end : gmap Z cbor)
  = match i with
    | Some (b :: bs) => {[ 4 := CBytes (b :: bs); 5 := CBytes n ]}
    | _ => {[ 5 := CBytes n ]}
    end.
Proof.
  destruct i as [[|b bs]|].
  - apply insert_empty.
  - apply insert_insert_ne. lia.
  - apply insert_empty.
Qed.

(** X9. In every successful [encode] the unprotected header given to the
    engine holds the nonce in use under label 5, the encryption key's key
    id under label 4 when that key id is present and non-empty, and nothing
    else. *)
Theorem encode_unprotected_header
    `{COSEKeyAPI} `{COSEEngine} `{CBORProcessor} k ek nonce tagged v :
  EncryptedCOSEKey.encode k ek nonce tagged = Return v ->
  exists n payload res,
    cose_encode_and_encrypt payload ek {[ 1 := CInt (alg ek) ]}
      match kid ek with
      | Some (b :: bs) => {[ 4 := CBytes (b :: bs); 5 := CBytes n ]}
      | _ => {[ 5 := CBytes n ]}
      end
      n "cbor2/CBORTag" = Return res /\
    v = value res.
Proof.
  intros Hrun.
  destruct (encode_Return_inv _ _ _ _ _ Hrun)
    as (n & d & payload & res & _ & _ & _ & Hengine & Hv).
  exists n, payload, res. split; [|exact Hv].
  rewrite <- unprotected_header. exact Hengine.
Qed.

Lemma encode_unprotected_header_witness :
  exists n payload res,
    @cose_encode_and_encrypt clear_engine payload kek {[ 1 := CInt (alg kek) ]}
      match kid kek with
      | Some (b :: bs) => {[ 4 := CBytes (b :: bs); 5 := CBytes n ]}
      | _ => {[ 5 := CBytes n ]}
      end
      n "cbor2/CBORTag" = Return res /\
    CArray [CMap [(CInt 1, CInt (-3))];
            CMap [(CInt 5, CBytes [x01; x02]); (CInt 4, CBytes [x30; x31])];
            CBytes rfc3394_key_data] = value res.
Proof.
  apply (@encode_unprotected_header (plain_keys (Return [])) clear_engine
           key_bytes_codec cek kek [x01; x02] false).
  vm_compute. reflexivity.
Defined.

(** X10. With a non-empty nonce, [encode] does not consult the key's nonce
    generator: two key implementations that serialize the key alike give
    the same result, however their [generate_nonce] behaves. *)
Theorem encode_supplied_nonce_only
    (keys keys' : COSEKeyAPI) `{COSEEngine} `{CBORProcessor} k ek nonce tagged :
  nonce <> [] ->
  @to_dict keys k = @to_dict keys' k ->
  @EncryptedCOSEKey.encode keys _ _ k ek nonce tagged
  = @EncryptedCOSEKey.encode keys' _ _ k ek nonce tagged.
Proof.
  intros Hne Hdict.
  rewrite (@encode_with_nonce_in_use keys _ _ k ek nonce tagged nonce) by auto.
  rewrite (@encode_with_nonce_in_use keys' _ _ k ek nonce tagged nonce) by auto.
  now rewrite Hdict.
Qed.

Lemma encode_supplied_nonce_only_witness :
  @EncryptedCOSEKey.encode (plain_keys (Return [x2a])) clear_engine
    key_bytes_codec cek kek [x01; x02] false
  = @EncryptedCOSEKey.encode (plain_keys (Raise (NotImplementedError "")))
      clear_engine key_bytes_codec cek kek [x01; x02] false.
Proof.
  apply (encode_supplied_nonce_only (plain_keys (Return [x2a]))
           (plain_keys (Raise (NotImplementedError "")))).
  - discriminate.
  - reflexivity.
Defined.

(** X11. With an empty nonce, an exception of the key's nonce generator
    other than [NotImplementedError] leaves [encode] as it is: only
    [NotImplementedError] is turned into [ValueError]. *)
Theorem encode_nonce_generator_failure
    `{COSEKeyAPI} `{COSEEngine} `{CBORProcessor} k ek tagged e :
  generate_nonce ek = Raise e ->
  (forall msg, e <> NotImplementedError msg) ->
  EncryptedCOSEKey.encode k ek [] tagged = Raise e.
Proof.
  intros Hgen Hother. unfold EncryptedCOSEKey.encode.
  simpl truthy. cbv iota. rewrite Hgen.
  destruct e; try reflexivity. now destruct (Hother msg).
Qed.

Lemma encode_nonce_generator_failure_witness :
  @EncryptedCOSEKey.encode (plain_keys (Raise (OtherException "OSError" "")))
    clear_engine key_bytes_codec cek kek [] false
  = Raise (OtherException "OSError" "").
Proof.
  apply (@encode_nonce_generator_failure
           (plain_keys (Raise (OtherException "OSError" "")))
           clear_engine key_bytes_codec cek kek false).
  - reflexivity.
  - discriminate.
Defined.

(** X12. Once the nonce is settled, [encode] raises exactly what the first
    failing step raises, unchanged: the key's [to_dict], then the
    serialization of the attribute mapping, then the engine. *)
Theorem encode_downstream_failures
    `{COSEKeyAPI} `{COSEEngine} `{CBORProcessor} k ek nonce tagged n e :
  (nonce <> [] /\ n = nonce \/ nonce = [] /\ generate_nonce ek = Return n) ->
  (EncryptedCOSEKey.encode k ek nonce tagged = Raise e <->
   to_dict k = Raise e \/
   exists d,
     to_dict k = Return d /\
     (_dumps d = Raise e \/
      exists payload,
        _dumps d = Return payload /\
        cose_encode_and_encrypt payload ek {[ 1 := CInt (alg ek) ]}
          match kid ek with
          | Some (b :: bs) => {[ 4 := CBytes (b :: bs); 5 := CBytes n ]}
          | _ => {[ 5 := CBytes n ]}
          end
          n "cbor2/CBORTag" = Raise e)).
Proof.
  intros Hn. rewrite (encode_with_nonce_in_use k ek nonce tagged n Hn).
  rewrite unprotected_header.
  destruct (to_dict k) as [d|e1].
  - rewrite ResultFacts.bind_Return.
    destruct (_dumps d) as [payload|e2] eqn:Hdumps.
    + rewrite ResultFacts.bind_Return.
      match goal with
      | |- context [cose_encode_and_encrypt ?p ?q ?r ?u ?m ?o] =>
          destruct (cose_encode_and_encrypt p q r u m o) as [res|e3] eqn:Hengine
      end.
      * rewrite ResultFacts.bind_Return. split; [discriminate|].
        intros [Hd|(d' & Hd & [Hp|(p & Hp & He)])]; try discriminate;
          injection Hd as <-; rewrite Hdumps in Hp; [discriminate|].
        injection Hp as <-. rewrite Hengine in He. discriminate.
      * rewrite bind_Raise. split.
        -- intros Heq. injection Heq as <-. right. exists d.
           split; [reflexivity|]. right. exists payload. auto.
        -- intros [Hd|(d' & Hd & [Hp|(p & Hp & He)])]; try discriminate;
             injection Hd as <-; rewrite Hdumps in Hp; [discriminate|].
           injection Hp as <-. rewrite Hengine in He. now injection He as <-.
    + rewrite bind_Raise. split.
      * intros Heq. injection Heq as <-. right. exists d. auto.
      * intros [Hd|(d' & Hd & [Hp|(p & Hp & _)])]; try discriminate;
          injection Hd as <-; rewrite Hdumps in Hp; [|discriminate].
        now injection Hp as <-.
  - rewrite bind_Raise. split.
    + intros Heq. injection Heq as <-. auto.
    + intros [Hd|(d' & Hd & _)]; [now injection Hd as <-|discriminate].
Qed.

Lemma encode_downstream_failures_witness :
  @EncryptedCOSEKey.encode (plain_keys (Return [x01; x02])) failing_engine
    key_bytes_codec cek kek [] false
  = Raise (EncodeError "Failed to encrypt." None).
Proof.
  apply (@encode_downstream_failures (plain_keys (Return [x01; x02]))
           failing_engine key_bytes_codec cek kek [] false [x01; x02]).
  - right. split; reflexivity.
  - right. eexists. split; [reflexivity|]. right.
    exists rfc3394_key_data. split; reflexivity.
Defined.

(** X13. The envelope round trip: when the engine decrypts under tag 16 what
    it encrypted, and the codec and the key builder read back what the key's
    [to_dict] and the codec wrote, [decode] applied to the result of a
    successful [encode] returns the original key, for [tagged] true or
    false. *)
Theorem decode_encode
    `{COSEKeyAPI} `{COSEEngine} `{CBORProcessor} `{KeyBuilder}
    k ek nonce tagged v :
  (forall payload protected unprotected n res,
      cose_encode_and_encrypt payload ek protected unprotected n "cbor2/CBORTag"
      = Return res ->
      cose_decode (CTag 16 (value res)) ek = Return payload) ->
  (forall d payload,
      to_dict k = Return d -> _dumps d = Return payload ->
      exists d', _loads payload = Return d' /\ from_dict d' = Return k) ->
  EncryptedCOSEKey.encode k ek nonce tagged = Return v ->
  EncryptedCOSEKey.decode v ek = Return k.
Proof.
  intros Hengine Hcodec Hrun.
  destruct (encode_Return_inv _ _ _ _ _ Hrun)
    as (n & d & payload & res & _ & Hdict & Hdumps & Hcall & ->).
  destruct (Hcodec d payload Hdict Hdumps) as (d' & Hloads & Hbuild).
  unfold EncryptedCOSEKey.decode.
  rewrite (Hengine _ _ _ _ _ Hcall), ResultFacts.bind_Return, Hloads,
    ResultFacts.bind_Return.
  exact Hbuild.
Qed.

Lemma decode_encode_witness :
  @EncryptedCOSEKey.decode clear_engine key_bytes_codec key_bytes_builder
    (CArray [CMap [(CInt 1, CInt (-3))];
             CMap [(CInt 5, CBytes [x01; x02]); (CInt 4, CBytes [x30; x31])];
             CBytes rfc3394_key_data]) kek
  = Return cek.
Proof.
  apply (@decode_encode (plain_keys (Return [x01; x02])) clear_engine
           key_bytes_codec key_bytes_builder cek kek [] true).
  - intros payload protected unprotected n res Hres.
    injection Hres as <-. reflexivity.
  - intros d payload Hd Hp. injection Hd as <-. injection Hp as <-.
    eexists. split; reflexivity.
  - vm_compute. reflexivity.
Defined.

End EncryptedCOSEKeyFurther.
